(** * clickorm-ch: the SQL-compilation core, embedded and verified

    A shallow embedding of the pure text-producing parts of the package
    [clickorm_ch]:

    - [dialect.py]        identifier quoting and table-name rendering,
    - [ddl.py]            type rendering and CREATE TABLE assembly,
    - [engine.py]         the type parser [_parse_ch_type],
    - [expressions.py]    the expression tree and its compilation,
    - [compiler.py]       the SELECT compiler and its parameter allocator,
    - [query.py]          the query builder ([filter], [count], ...),
    - [insert_builder.py] the INSERT ... SELECT builder.

    A Python [str] is a [string] whose characters are code points below
    256; the character classes below (whitespace, digits, case mapping) are
    Python's, restricted to that range.  A [dict] used as a map is a
    [gmap]; a [dict] whose insertion order decides the output is an
    association list.  A Python exception is a value of [exn] returned in
    [result]. *)

From stdpp Require Import gmap strings pretty list sorting.
From Stdlib Require Import Ascii.



(** ** Python built-ins on [str] *)

Definition code (c : ascii) : N := N_of_ascii c.

(** [str.isspace] on one character: the ASCII table of CPython
    (0x09-0x0D, 0x1C-0x1F, 0x20) and, above it, NEL and NBSP.  The regex
    class [\s] of a [str] pattern is the same predicate. *)
Definition is_space (c : ascii) : bool :=
  let n := code c in
  ((9 <=? n) && (n <=? 13) || (28 <=? n) && (n <=? 32)
   || (n =? 133) || (n =? 160))%N.

(** The regex class [\d] below code point 256 is [0-9]. *)
Definition is_digit (c : ascii) : bool :=
  let n := code c in ((48 <=? n) && (n <=? 57))%N.

(** [str.lower] on one character: A-Z, and the Latin-1 capitals
    0xC0-0xDE without the multiplication sign 0xD7. *)
Definition lower_char (c : ascii) : ascii :=
  let n := code c in
  if ((65 <=? n) && (n <=? 90) || (192 <=? n) && (n <=? 222) && negb (n =? 215))%N
  then ascii_of_N (n + 32) else c.

Fixpoint lower (s : string) : string :=
  match s with
  | "" => ""
  | String c s' => String (lower_char c) (lower s')
  end.

Fixpoint lstrip (s : string) : string :=
  match s with
  | "" => ""
  | String c s' => if is_space c then lstrip s' else s
  end.

Fixpoint rstrip (s : string) : string :=
  match s with
  | "" => ""
  | String c s' =>
      match rstrip s' with
      | "" => if is_space c then "" else String c ""
      | r => String c r
      end
  end.

(** [s.strip()] *)
Definition strip (s : string) : string := rstrip (lstrip s).

(** [s.startswith(c)] and [s.endswith(c)] for a one-character [c]. *)
Definition startswith (c : ascii) (s : string) : bool :=
  match s with
  | String d _ => bool_decide (d = c)
  | "" => false
  end.

Fixpoint last_char (s : string) : option ascii :=
  match s with
  | "" => None
  | String c "" => Some c
  | String _ s' => last_char s'
  end.

Definition endswith (c : ascii) (s : string) : bool :=
  match last_char s with
  | Some d => bool_decide (d = c)
  | None => false
  end.

Definition tail (s : string) : string :=
  match s with
  | "" => ""
  | String _ s' => s'
  end.

Fixpoint drop_last (s : string) : string :=
  match s with
  | "" => ""
  | String _ "" => ""
  | String c s' => String c (drop_last s')
  end.

(** The slice [s[1:-1]]: empty for a string of fewer than two characters. *)
Definition slice_1_m1 (s : string) : string := drop_last (tail s).

(** [s.replace(c, c + c)] for a one-character [c]. *)
Fixpoint double_char (c : ascii) (s : string) : string :=
  match s with
  | "" => ""
  | String d s' =>
      if bool_decide (d = c) then String c (String c (double_char c s'))
      else String d (double_char c s')
  end.

(** [c in s] for a one-character [c]. *)
Fixpoint contains_char (c : ascii) (s : string) : bool :=
  match s with
  | "" => false
  | String d s' => bool_decide (d = c) || contains_char c s'
  end.

(** [s.split(c, 1)] when [c] occurs in [s]: the text before the first
    occurrence and the text after it. *)
Fixpoint split_once (c : ascii) (s : string) : string * string :=
  match s with
  | "" => ("", "")
  | String d s' =>
      if bool_decide (d = c) then ("", s')
      else let '(a, b) := split_once c s' in (String d a, b)
  end.

(** [sep.join(parts)] *)
Fixpoint join (sep : string) (parts : list string) : string :=
  match parts with
  | [] => ""
  | [p] => p
  | p :: rest => p +:+ sep +:+ join sep rest
  end.

(** ** dialect.py *)

Definition dq : ascii := "034"%char.
Definition bq : ascii := "`"%char.
Definition sq : ascii := "'"%char.
Definition dot : ascii := "."%char.

Definition strip_any_quotes (name : string) : string :=
  match name with
  | "" => name
  | _ =>
      let s := strip name in
      if (startswith dq s && endswith dq s)
         || (startswith bq s && endswith bq s)
         || (startswith sq s && endswith sq s)
      then slice_1_m1 s
      else s
  end.

Definition DQ : string := String dq "".

Definition quote_ident (name : string) : string :=
  let raw := strip_any_quotes name in
  DQ +:+ double_char dq raw +:+ DQ.

Definition render_table_name (name : string) : string :=
  let s := strip name in
  if contains_char dot s then
    let '(db, tbl) := split_once dot s in
    quote_ident db +:+ "." +:+ quote_ident tbl
  else quote_ident s.

(** ** types.py

    Modelled from the spec: the module [types.py] that declares the column
    type classes is absent.  A Column Type is the tagged variant of the
    spec's data model: sixteen plain leaves, three leaves parameterized by
    natural numbers (a length, a precision, a precision and a scale), and
    three wrappers around exactly one inner type.  Two values are equal
    when they are built the same way. *)

Inductive CHType : Type :=
  | Int8 | Int16 | Int32 | Int64
  | UInt8 | UInt16 | UInt32 | UInt64
  | Float32 | Float64
  | String_ | UUID | Bool
  | Date | Date32 | DateTime
  | Decimal (precision scale : N)
  | FixedString (n : N)
  | DateTime64 (precision : N)
  | Nullable (inner : CHType)
  | Array (inner : CHType)
  | LowCardinality (inner : CHType).

(** ** ddl.py: type rendering *)

(** [_render_type] on a type object.  [f"{n}"] of a non-negative [int] is
    its decimal numeral, [pretty n]. *)
Fixpoint render_chtype (t : CHType) : string :=
  match t with
  | Int8 => "Int8" | Int16 => "Int16" | Int32 => "Int32" | Int64 => "Int64"
  | UInt8 => "UInt8" | UInt16 => "UInt16" | UInt32 => "UInt32" | UInt64 => "UInt64"
  | Float32 => "Float32" | Float64 => "Float64"
  | String_ => "String" | UUID => "UUID" | Bool => "Bool"
  | Date => "Date" | Date32 => "Date32" | DateTime => "DateTime"
  | Decimal p s => "Decimal(" +:+ pretty p +:+ "," +:+ pretty s +:+ ")"
  | FixedString n => "FixedString(" +:+ pretty n +:+ ")"
  | DateTime64 p => "DateTime64(" +:+ pretty p +:+ ")"
  | Nullable inner => "Nullable(" +:+ render_chtype inner +:+ ")"
  | Array inner => "Array(" +:+ render_chtype inner +:+ ")"
  | LowCardinality inner => "LowCardinality(" +:+ render_chtype inner +:+ ")"
  end.

(** The argument of [_render_type] is [Union[CHType, str]]: a [str] is
    returned as it is. *)
Inductive TypeArg : Type :=
  | TStr (s : string)
  | TObj (t : CHType).

Definition _render_type (t : TypeArg) : string :=
  match t with
  | TStr s => s
  | TObj t => render_chtype t
  end.

(** ** engine.py: the type parser *)

Inductive exn : Type :=
  | IndexError
  | StopIteration
  | RecursionError
  | AssertionError (msg : string).

Inductive result (A : Type) : Type :=
  | Ok (a : A)
  | Raise (e : exn).
Arguments Ok {A} a.
Arguments Raise {A} e.

(** Pieces of the regular expressions.  Every pattern below is matched
    with [re.I] from the start of the string, and each of its pieces has at
    most one way to match, so matching is a left-to-right read. *)

(** A lower-case ASCII keyword, matched case-insensitively as a prefix. *)
Fixpoint ci_prefix (kw s : string) : option string :=
  match kw with
  | "" => Some s
  | String k kw' =>
      match s with
      | "" => None
      | String c s' =>
          if bool_decide (lower_char c = k) && (code c <? 128)%N
          then ci_prefix kw' s' else None
      end
  end.

(** [\s*] *)
Definition skip_ws (s : string) : string := lstrip s.

(** A literal character. *)
Definition expect (c : ascii) (s : string) : option string :=
  match s with
  | String d s' => if bool_decide (d = c) then Some s' else None
  | "" => None
  end.

(** [(\d+)]: the longest run of digits, which must not be empty. *)
Fixpoint take_digits (s : string) : string * string :=
  match s with
  | "" => ("", "")
  | String c s' =>
      if is_digit c then let '(d, r) := take_digits s' in (String c d, r)
      else ("", s)
  end.

Definition digits1 (s : string) : option (string * string) :=
  match take_digits s with
  | ("", _) => None
  | (d, r) => Some (d, r)
  end.

(** [\s*$]: only whitespace is left ([$] also matches before a final
    newline, which [\s*] has already taken). *)
Definition ws_to_end (s : string) : bool :=
  match skip_ws s with
  | "" => true
  | _ => false
  end.

Definition nl : ascii := "010"%char.

(** The end [(.+)\)$] of the wrapper pattern, with a star where this comment
    has a plus: [.] matches every character but a newline, and [$] matches
    at the end or before a newline that ends the string.  The group is the
    text up to the closing parenthesis that [$] follows. *)
Definition dotstar_close (s : string) : option string :=
  let s1 := if endswith nl s then drop_last s else s in
  if endswith ")" s1 && negb (contains_char nl (drop_last s1))
  then Some (drop_last s1) else None.

(** [int(digits)] on a run of digits.  The interpreter refuses a numeral
    of more than 4300 digits; that limit is not modelled, and the
    properties that depend on it bound the length of the text. *)
Definition digit_val (c : ascii) : N := (code c - 48)%N.

Fixpoint int_acc (acc : N) (s : string) : N :=
  match s with
  | "" => acc
  | String c s' => int_acc (acc * 10 + digit_val c) s'
  end.

Definition int (s : string) : N := int_acc 0 s.

(** [_RE_WRAP1]: one of the keywords nullable, array, lowcardinality, then
    [\s*\(], then the greedy group and [\)$] of [dotstar_close].  The
    result is the two groups, the first one lower-cased. *)
Definition _RE_WRAP1 (s : string) : option (string * string) :=
  let after kw :=
    r ← ci_prefix kw s;
    r ← expect "(" (skip_ws r);
    inner ← dotstar_close r;
    Some (kw, inner) in
  match after "nullable" with
  | Some g => Some g
  | None =>
      match after "array" with
      | Some g => Some g
      | None => after "lowcardinality"
      end
  end.

(** [_RE_DECIMAL = ^decimal\s*\(\s*(\d+)\s*,\s*(\d+)\s*\)\s*$] *)
Definition _RE_DECIMAL (s : string) : option (string * string) :=
  r ← ci_prefix "decimal" s;
  r ← expect "(" (skip_ws r);
  '(p, r) ← digits1 (skip_ws r);
  r ← expect "," (skip_ws r);
  '(sc, r) ← digits1 (skip_ws r);
  r ← expect ")" (skip_ws r);
  if ws_to_end r then Some (p, sc) else None.

(** [^kw\s*\(\s*(\d+)\s*\)\s*$], the shape of [_RE_FIXED] and [_RE_DT64] *)
Definition re_one_number (kw s : string) : option string :=
  r ← ci_prefix kw s;
  r ← expect "(" (skip_ws r);
  '(n, r) ← digits1 (skip_ws r);
  r ← expect ")" (skip_ws r);
  if ws_to_end r then Some n else None.

Definition _RE_FIXED : string → option string := re_one_number "fixedstring".
Definition _RE_DT64 : string → option string := re_one_number "datetime64".

Definition _SIMPLE_MAP : gmap string CHType :=
  list_to_map
    [("int8", Int8); ("int16", Int16); ("int32", Int32); ("int64", Int64);
     ("uint8", UInt8); ("uint16", UInt16); ("uint32", UInt32); ("uint64", UInt64);
     ("float32", Float32); ("float64", Float64);
     ("string", String_);
     ("uuid", UUID);
     ("bool", Bool);
     ("boolean", Bool);
     ("date", Date);
     ("date32", Date32);
     ("datetime", DateTime)].

(** [key.split()]'s first element, if there is one: the first maximal run
    of characters that are not whitespace. *)
Fixpoint take_word (s : string) : string :=
  match s with
  | "" => ""
  | String c s' => if is_space c then "" else String c (take_word s')
  end.

Definition first_word (s : string) : option string :=
  match lstrip s with
  | "" => None
  | w => Some (take_word w)
  end.

(** The part of [_parse_ch_type] below the wrapper branch, on the
    stripped text [s]: the three parameterized leaves, then the table of
    plain names, then the text type.  [key.split()[0]] raises when the
    list of words is empty. *)
Definition parse_leaf (s : string) : result CHType :=
  match _RE_DECIMAL s with
  | Some (p, sc) => Ok (Decimal (int p) (int sc))
  | None =>
  match _RE_FIXED s with
  | Some n => Ok (FixedString (int n))
  | None =>
  match _RE_DT64 s with
  | Some p => Ok (DateTime64 (int p))
  | None =>
      let key := lower s in
      match first_word key with
      | None => Raise IndexError
      | Some key =>
          match _SIMPLE_MAP !! key with
          | Some ty => Ok ty
          | None => Ok String_
          end
      end
  end end end.

(** The body of [_parse_ch_type].  [fuel] bounds the depth of the
    recursion and [None] means that it ran out; the recursive call is on the
    inner group, which is shorter than the text, so [String.length t] levels
    always suffice. *)
Fixpoint parse_ch_type_fuel (fuel : nat) (t : string) : option (result CHType) :=
  let s := strip t in
  match _RE_WRAP1 s with
  | Some (wrap, group2) =>
      let inner_raw := strip group2 in
      match fuel with
      | O => None
      | S fuel' =>
          match parse_ch_type_fuel fuel' inner_raw with
          | None => None
          | Some (Raise e) => Some (Raise e)
          | Some (Ok inner) =>
              if bool_decide (wrap = "nullable") then Some (Ok (Nullable inner))
              else if bool_decide (wrap = "array") then Some (Ok (Array inner))
              else if bool_decide (wrap = "lowcardinality") then Some (Ok (LowCardinality inner))
              else Some (parse_leaf s)
          end
      end
  | None => Some (parse_leaf s)
  end.

(** The interpreter's own bound on the depth of calls is not modelled:
    the last branch is never taken ([parse_ch_type_fuel_enough]). *)
Definition _parse_ch_type (t : string) : result CHType :=
  match parse_ch_type_fuel (String.length t) t with
  | Some r => r
  | None => Raise RecursionError
  end.

(** ** model.py *)

(** A column after [ModelMeta] has run: its name is set. *)
Record Column : Type := {
  ch_type : TypeArg;
  primary_key : bool;
  name : string
}.

(** A secondary index entry: the keys [name], [expr], [type] and the
    optional key [granularity] of the dict. *)
Record Index : Type := {
  ix_name : string;
  ix_expr : string;
  ix_type : string;
  ix_granularity : option string
}.

(** A settings value: a [bool], an [int], or a text (other objects, which
    are formatted by their own [__str__], are not modelled). *)
Inductive SettingValue : Type :=
  | SVBool (b : bool)
  | SVInt (z : Z)
  | SVStr (s : string).

(** A model class: [__table__] and [__columns__] are set by [ModelMeta]
    (the columns in declaration order), the DDL directives are class
    attributes that may be absent ([getattr] with a default). *)
Record Model : Type := {
  __table__ : string;
  __columns__ : list (string * Column);
  __engine__ : option string;
  __order_by__ : option (list string);
  __partition_by__ : option string;
  __primary_key__ : option (list string);
  __ttl__ : option string;
  __settings__ : option (list (string * SettingValue));
  __indexes__ : option (list Index);
  __comment__ : option string
}.

(** ** ddl.py: statements *)

(** Truth value of an [Optional[str]] and of an optional list. *)
Definition truthy_str (o : option string) : bool :=
  match o with
  | Some (String _ _) => true
  | _ => false
  end.

Definition truthy_list {A} (o : option (list A)) : bool :=
  match o with
  | Some (_ :: _) => true
  | _ => false
  end.

Definition _render_columns_from_dict (columns : list (string * TypeArg)) : string :=
  join (String "," (String nl "  "))
       (map (λ '(name, t), quote_ident name +:+ " " +:+ _render_type t) columns).

Definition _render_columns_from_model (model : Model) : string :=
  join (String "," (String nl "  "))
       (map (λ '(_, col), quote_ident (name col) +:+ " " +:+ _render_type (ch_type col))
            (__columns__ model)).

Definition _render_settings (settings : option (list (string * SettingValue))) : option string :=
  match settings with
  | None | Some [] => None
  | Some items =>
      Some ("SETTINGS " +:+
        join ", " (map (λ '(k, v),
          match v with
          | SVBool b => k +:+ "=" +:+ (if b then "1" else "0")
          | SVInt z => k +:+ "=" +:+ pretty z
          | SVStr s => k +:+ "='" +:+ s +:+ "'"
          end) items))
  end.

Definition _render_indexes (indexes : option (list Index)) : option string :=
  match indexes with
  | None | Some [] => None
  | Some ixs =>
      Some (join (String "," (String nl "  "))
        (map (λ ix,
          let name := quote_ident (ix_name ix) in
          if truthy_str (ix_granularity ix)
          then "INDEX " +:+ name +:+ " " +:+ ix_expr ix +:+ " TYPE " +:+ ix_type ix
               +:+ " GRANULARITY " +:+ default "" (ix_granularity ix)
          else "INDEX " +:+ name +:+ " " +:+ ix_expr ix +:+ " TYPE " +:+ ix_type ix) ixs))
  end.

(** The arguments of [create_table] after [db] and [name]. *)
Record TableOptions : Type := {
  engine : string;
  order_by : option (list string);
  partition_by : option string;
  opt_primary_key : option (list string);
  ttl : option string;
  indexes : option (list Index);
  settings : option (list (string * SettingValue));
  if_not_exists : bool;
  comment : option string
}.

(** The keyword defaults of [create_table]. *)
Definition default_options : TableOptions :=
  {| engine := "MergeTree"; order_by := None; partition_by := None;
     opt_primary_key := None; ttl := None; indexes := None; settings := None;
     if_not_exists := true; comment := None |}.

(** The list [parts], which [create_table] and [create_table_from_model]
    build with the same lines of code from the table text, the column text
    and the directives; the statement is its elements joined by a newline. *)
Definition table_parts (tbl cols_sql : string) (o : TableOptions) : list string :=
  ["CREATE TABLE " +:+ (if if_not_exists o then "IF NOT EXISTS " else "") +:+ tbl;
   String "(" (String nl "  ") +:+ cols_sql]
  ++ match _render_indexes (indexes o) with
     | Some (String c ix) => [String "," (String nl "  ") +:+ String c ix]
     | _ => []
     end
  ++ [String nl ")"]
  ++ ["ENGINE = " +:+ engine o]
  ++ (if truthy_str (partition_by o)
      then ["PARTITION BY " +:+ default "" (partition_by o)] else [])
  ++ (if truthy_list (opt_primary_key o)
      then ["PRIMARY KEY (" +:+ join ", " (map quote_ident (default [] (opt_primary_key o))) +:+ ")"]
      else [])
  ++ (if truthy_list (order_by o)
      then ["ORDER BY (" +:+ join ", " (map quote_ident (default [] (order_by o))) +:+ ")"]
      else [])
  ++ (if truthy_str (ttl o) then ["TTL " +:+ default "" (ttl o)] else [])
  ++ match _render_settings (settings o) with
     | Some (String c st) => [String c st]
     | _ => []
     end
  ++ (if truthy_str (comment o)
      then ["COMMENT '" +:+ default "" (comment o) +:+ "'"] else []).

Definition assemble (tbl cols_sql : string) (o : TableOptions) : string :=
  join (String nl "") (table_parts tbl cols_sql o).

(** [{k.lower(): k for k in columns.keys()}]: a later key replaces an
    earlier one with the same lower-case form. *)
Definition cols_lower (columns : list (string * TypeArg)) : gmap string string :=
  foldl (λ m k, <[lower k := k]> m) ∅ (map fst columns).

(** [create_table]: the statement handed to [db.execute], or the exception
    raised before that. *)
Definition create_table (name : string) (columns : list (string * TypeArg))
    (o : TableOptions) : result string :=
  let tbl := render_table_name name in
  let resolved : result (option (list string)) :=
    match order_by o with
    | None =>
        match cols_lower columns !! "id" with
        | Some k => Ok (Some [k])
        | None =>
            match columns with
            | (first_col, _) :: _ => Ok (Some [first_col])
            | [] => Raise StopIteration
            end
        end
    | Some ob => Ok (Some ob)
    end in
  match resolved with
  | Raise e => Raise e
  | Ok ob =>
      let cols_sql := _render_columns_from_dict columns in
      Ok (assemble tbl cols_sql
            {| engine := engine o; order_by := ob; partition_by := partition_by o;
               opt_primary_key := opt_primary_key o; ttl := ttl o;
               indexes := indexes o; settings := settings o;
               if_not_exists := if_not_exists o; comment := comment o |})
  end.

(** [create_table_from_model]: the statement handed to [db.execute]. *)
Definition create_table_from_model (model : Model) (if_not_exists : bool) : string :=
  let table := __table__ model in
  let cols_sql := _render_columns_from_model model in
  let tbl := render_table_name table in
  assemble tbl cols_sql
    {| engine := default "MergeTree" (__engine__ model);
       order_by := __order_by__ model;
       partition_by := __partition_by__ model;
       opt_primary_key := __primary_key__ model;
       ttl := __ttl__ model;
       indexes := __indexes__ model;
       settings := __settings__ model;
       if_not_exists := if_not_exists;
       comment := __comment__ model |}.

Definition drop_table (name : string) (if_exists : bool) : string :=
  "DROP TABLE " +:+ (if if_exists then "IF EXISTS " else "") +:+ render_table_name name.

(** ** expressions.py *)

(** A literal: an opaque scalar or a list. *)
#[warnings="-register-all"]
Inductive PyValue : Type :=
  | PyNone
  | PyBool (b : bool)
  | PyInt (z : Z)
  | PyStr (s : string)
  | PyList (items : list PyValue).

(** The expression classes.  [LogicalExpr] inherits [to_sql] from
    [BinaryExpr]; [_Raw] is the class that [Query.filter] wraps a [str]
    in.  The field [model_cls] of [ColumnExpr] is not read by the compiler
    and is left out. *)
Inductive Expr : Type :=
  | ColumnExpr (name : string)
  | ValueExpr (value : PyValue)
  | BinaryExpr (left : Expr) (op : string) (right : Expr)
  | LogicalExpr (left : Expr) (op : string) (right : Expr)
  | _Raw (sql : string).

(** ** compiler.py *)

(** The allocator: the counter [_i] of a [Compiler] instance. *)
Record Compiler : Type := { _i : nat }.

Definition new_Compiler : Compiler := {| _i := 0 |}.

(** [f"p{self._i}"] *)
Definition pname (i : nat) : string := "p" +:+ pretty i.

Definition add_param (self : Compiler) (v : PyValue) : string * Compiler :=
  (pname (_i self), {| _i := S (_i self) |}).

(** [f"%({pname})s"] *)
Definition placeholder (p : string) : string := "%(" +:+ p +:+ ")s".

(** [to_sql], with the compiler's state passed through.  [{**lp, **rp}]
    keeps the right binding of a name bound on both sides. *)
Fixpoint to_sql (e : Expr) (compiler : Compiler)
    : string * gmap string PyValue * Compiler :=
  match e with
  | ColumnExpr name => (quote_ident name, ∅, compiler)
  | ValueExpr value =>
      let '(p, compiler) := add_param compiler value in
      (placeholder p, {[ p := value ]}, compiler)
  | BinaryExpr l op r | LogicalExpr l op r =>
      let '(ls, lp, compiler) := to_sql l compiler in
      let '(rs, rp, compiler) := to_sql r compiler in
      ("(" +:+ ls +:+ " " +:+ op +:+ " " +:+ rs +:+ ")", rp ∪ lp, compiler)
  | _Raw sql => (sql, ∅, compiler)
  end.

(** [Compiler.select] *)
Definition select (self : Compiler) (model : Model) (where_ : option Expr)
    (order_by : option (list (string * string))) (limit offset : option Z)
    : string * gmap string PyValue * Compiler :=
  let cols :=
    match join ", " (map (λ '(_, c), quote_ident (name c)) (__columns__ model)) with
    | "" => "*"
    | joined => joined
    end in
  let tbl := render_table_name (__table__ model) in
  let sql := "SELECT " +:+ cols +:+ " FROM " +:+ tbl in
  let params : gmap string PyValue := ∅ in
  let '(sql, params, self) :=
    match where_ with
    | Some w =>
        let '(ws, wp, self) := to_sql w self in
        (sql +:+ " WHERE " +:+ ws, wp ∪ params, self)
    | None => (sql, params, self)
    end in
  let sql :=
    if truthy_list order_by then
      sql +:+ " ORDER BY " +:+
        join ", " (map (λ '(col, direction), quote_ident col +:+ " " +:+ direction)
                       (default [] order_by))
    else sql in
  let '(sql, params, self) :=
    match limit with
    | Some n =>
        let '(p, self) := add_param self (PyInt n) in
        (sql +:+ " LIMIT " +:+ placeholder p, <[ p := PyInt n ]> params, self)
    | None => (sql, params, self)
    end in
  let '(sql, params, self) :=
    match offset with
    | Some n =>
        let '(p, self) := add_param self (PyInt n) in
        (sql +:+ " OFFSET " +:+ placeholder p, <[ p := PyInt n ]> params, self)
    | None => (sql, params, self)
    end in
  (sql, params, self).

(** ** query.py *)

(** A [Query] without its engine.  An ordering entry is the name of its
    [ColumnExpr] and the direction text. *)
Record Query : Type := {
  model : Model;
  _where : option Expr;
  _order_by : option (list (string * string));
  _limit : option Z;
  _offset : option Z
}.

Definition new_Query (m : Model) : Query :=
  {| model := m; _where := None; _order_by := None; _limit := None; _offset := None |}.

(** The argument of [filter]: [Union[Expr, str]]. *)
Inductive FilterArg : Type :=
  | FExpr (e : Expr)
  | FStr (s : string).

Definition filter (self : Query) (expr : FilterArg) : Query :=
  let expr := match expr with FStr s => _Raw s | FExpr e => e end in
  {| model := model self;
     _where := match _where self with
               | None => Some expr
               | Some w => Some (LogicalExpr w "AND" expr)
               end;
     _order_by := _order_by self; _limit := _limit self; _offset := _offset self |}.

Definition q_order_by (self : Query) (cols : list (string * string)) : Query :=
  {| model := model self; _where := _where self; _order_by := Some cols;
     _limit := _limit self; _offset := _offset self |}.

Definition q_limit (self : Query) (n : Z) : Query :=
  {| model := model self; _where := _where self; _order_by := _order_by self;
     _limit := Some n; _offset := _offset self |}.

Definition q_offset (self : Query) (n : Z) : Query :=
  {| model := model self; _where := _where self; _order_by := _order_by self;
     _limit := _limit self; _offset := Some n |}.

(** [all]: the statement and the parameters handed to [engine.execute]. *)
Definition all (self : Query) : string * gmap string PyValue :=
  let comp := new_Compiler in
  let '(sql, params, _) :=
    select comp (model self) (_where self) (_order_by self) (_limit self) (_offset self) in
  (sql, params).

(** [count]: the statement and the parameters handed to [engine.scalar]. *)
Definition count (self : Query) : string * gmap string PyValue :=
  let comp := new_Compiler in
  let '(sql, params, _) :=
    select comp (model self) (_where self) (_order_by self) None None in
  let wrapped := "SELECT count() FROM (" +:+ sql +:+ ") AS " +:+ DQ +:+ "sub" +:+ DQ in
  (wrapped, params).

(** ** insert_builder.py *)

Record T : Type := { alias : string; t_name : string }.

(** The builder's fields; [_mapping] keeps the insertion order of the
    dict, and the target is the table text ([__table__] of a model). *)
Record InsertBuilder : Type := {
  target : string;
  _sources : list T;
  _mapping : list (string * string);
  _joins : list string;
  b_where : list string;
  _group_by : list string;
  b_order_by : list string
}.

(** The [from_clause] loop over [range(1, len(self._sources))]: [i] is the
    index of the next source and [joins] the texts from [i-1] on. *)
Fixpoint join_sources (rest : list T) (joins : list string) : string :=
  match rest with
  | [] => ""
  | src :: rest' =>
      let on := match joins with j :: _ => j | [] => "" end in
      " JOIN " +:+ render_table_name (t_name src) +:+ " AS " +:+ alias src
      +:+ (match on with "" => "" | _ => " ON " +:+ on end)
      +:+ join_sources rest' (List.tl joins)
  end.

(** [InsertBuilder.compile]: the pair [insert_sql], [select_sql]. *)
Definition compile (self : InsertBuilder) : result (string * string) :=
  match _sources self with
  | [] => Raise (AssertionError "No sources() specified")
  | s0 :: rest =>
      let from_clause :=
        render_table_name (t_name s0) +:+ " AS " +:+ alias s0
        +:+ join_sources rest (_joins self) in
      match _mapping self with
      | [] => Raise (AssertionError "No map() specified")
      | mapping =>
          let select_clause :=
            join ", " (map (λ '(col, expr), expr +:+ " AS " +:+ quote_ident col) mapping) in
          let where_clause :=
            match b_where self with
            | [] => ""
            | w => " WHERE " +:+ join " AND " w
            end in
          let group_clause :=
            match _group_by self with
            | [] => ""
            | g => " GROUP BY " +:+ join ", " g
            end in
          let order_clause :=
            match b_order_by self with
            | [] => ""
            | ob => " ORDER BY " +:+ join ", " ob
            end in
          let select_sql :=
            "SELECT " +:+ select_clause +:+ " FROM " +:+ from_clause
            +:+ where_clause +:+ group_clause +:+ order_clause in
          let cols_quoted := join ", " (map (λ '(c, _), quote_ident c) mapping) in
          let tbl := render_table_name (target self) in
          let insert_sql :=
            "INSERT INTO " +:+ tbl +:+ " (" +:+ cols_quoted +:+ ") " +:+ select_sql in
          Ok (insert_sql, select_sql)
      end
  end.

(** ** Notions used to state the properties *)

(** Reading a double-quoted identifier back: the text must open with a
    double quote, a doubled double quote inside stands for one, and a lone
    one must be the last character. *)
Fixpoint unquote_body (s : string) : option string :=
  match s with
  | "" => None
  | String c s' =>
      if bool_decide (c = dq) then
        match s' with
        | "" => Some ""
        | String d s'' =>
            if bool_decide (d = dq)
            then r ← unquote_body s''; Some (String dq r)
            else None
        end
      else r ← unquote_body s'; Some (String c r)
  end.

Definition unquote (s : string) : option string :=
  match s with
  | String c s' => if bool_decide (c = dq) then unquote_body s' else None
  | "" => None
  end.

(** The three characters that [strip_any_quotes] treats as quotes. *)
Definition is_quote (c : ascii) : Prop := c = dq ∨ c = bq ∨ c = sq.

(** [raw] is [s] or [s] without one enclosing pair of equal quotes. *)
Definition one_layer (s raw : string) : Prop :=
  (∃ q, is_quote q ∧ s = String q raw +:+ String q "")
  ∨ (raw = s ∧ ∀ q, is_quote q → startswith q s && endswith q s = false).

(** Texts made of digits only, and texts without whitespace. *)
Fixpoint digits_only (s : string) : bool :=
  match s with
  | "" => true
  | String c s' => is_digit c && digits_only s'
  end.

Fixpoint no_space (s : string) : bool :=
  match s with
  | "" => true
  | String c s' => negb (is_space c) && no_space s'
  end.

(** The query with its limit and offset cleared. *)
Definition without_paging (q : Query) : Query :=
  {| model := model q; _where := _where q; _order_by := _order_by q;
     _limit := None; _offset := None |}.

(** [needle in hay] *)
Fixpoint is_prefix (p s : string) : bool :=
  match p, s with
  | "", _ => true
  | String a p', String b s' => bool_decide (a = b) && is_prefix p' s'
  | _, "" => false
  end.

Fixpoint contains (needle hay : string) : bool :=
  is_prefix needle hay ||
  match hay with
  | "" => false
  | String _ hay' => contains needle hay'
  end.

(** The tree with every literal erased: two trees with the same shape
    differ in the values of their [ValueExpr] nodes only. *)
Fixpoint shape (e : Expr) : Expr :=
  match e with
  | ValueExpr _ => ValueExpr PyNone
  | BinaryExpr l op r => BinaryExpr (shape l) op (shape r)
  | LogicalExpr l op r => LogicalExpr (shape l) op (shape r)
  | ColumnExpr _ | _Raw _ => e
  end.

(** A predicate with one literal, as the comparison methods of
    [ColumnExpr] build it: [BinaryExpr(self, op, ValueExpr(other))]. *)
Record Pred : Type := { p_col : string; p_op : string; p_val : PyValue }.

Definition pred_expr (p : Pred) : Expr :=
  BinaryExpr (ColumnExpr (p_col p)) (p_op p) (ValueExpr (p_val p)).

(** The text of such a predicate whose literal is bound to [p_i]. *)
Definition pred_text (i : nat) (p : Pred) : string :=
  "(" +:+ quote_ident (p_col p) +:+ " " +:+ p_op p +:+ " " +:+ placeholder (pname i) +:+ ")".

(** A left-nested chain of AND groups: [acc] is the text so far and the
    literal of the next predicate is bound to [p_i]. *)
Fixpoint and_chain (i : nat) (acc : string) (ps : list Pred) : string :=
  match ps with
  | [] => acc
  | p :: ps' => and_chain (S i) ("(" +:+ acc +:+ " AND " +:+ pred_text i p +:+ ")") ps'
  end.

(** Placeholder fragments of a statement.  [read_name] reads a name up to
    the closing parenthesis; a fragment is a percent sign, an opening
    parenthesis, a name, a closing parenthesis and the letter s. *)
Fixpoint read_name (s : string) : option (string * string) :=
  match s with
  | "" => None
  | String c s' =>
      if bool_decide (c = ")"%char) then Some ("", s')
      else '(n, r) ← read_name s'; Some (String c n, r)
  end.

Definition placeholder_at (s : string) : option string :=
  match s with
  | String "%" (String "(" r) =>
      match read_name r with
      | Some (n, String "s" _) => Some n
      | _ => None
      end
  | _ => None
  end.

(** The names of the fragments of [s], in the order of their positions. *)
Fixpoint placeholders (s : string) : list string :=
  match s with
  | "" => []
  | String _ s' =>
      match placeholder_at s with
      | Some n => n :: placeholders s'
      | None => placeholders s'
      end
  end.

(** A text that has the fragments [names] and in which no fragment is
    left open, whatever text follows it. *)
Definition closed_frag (a : string) (names : list string) : Prop :=
  ∀ rest, placeholders (a +:+ rest) = names ++ placeholders rest.

(** No percent sign in a text, in the texts that an expression tree
    carries (column names, operators, raw fragments), in an ordering, and
    in the names of a model. *)
Definition pct_free (s : string) : bool := negb (contains_char "%" s).

Fixpoint pct_free_expr (e : Expr) : bool :=
  match e with
  | ColumnExpr name => pct_free name
  | ValueExpr _ => true
  | BinaryExpr l op r | LogicalExpr l op r =>
      pct_free_expr l && pct_free op && pct_free_expr r
  | _Raw sql => pct_free sql
  end.

Definition pct_free_order (ob : option (list (string * string))) : bool :=
  forallb (λ '(col, direction), pct_free col && pct_free direction) (default [] ob).

Definition pct_free_model (m : Model) : bool :=
  pct_free (__table__ m) && forallb (λ '(_, c), pct_free (name c)) (__columns__ m).

(** The names [p_i], ..., [p_(i+n-1)]. *)
Definition pnames (i n : nat) : list string := map pname (seq i n).

(** The number of [ValueExpr] nodes. *)
Fixpoint literals (e : Expr) : nat :=
  match e with
  | ValueExpr _ => 1
  | BinaryExpr l _ r | LogicalExpr l _ r => literals l + literals r
  | ColumnExpr _ | _Raw _ => 0
  end.

(** [Compiler.select] read as a pipeline: the statement, the parameters
    and the compiler after the first three lines, and one function for each
    of the four [if] blocks that follow ([select_steps] relates them to
    [select]). *)
Definition select_head (m : Model) : string :=
  "SELECT " +:+
  match join ", " (map (λ '(_, c), quote_ident (name c)) (__columns__ m)) with
  | "" => "*"
  | joined => joined
  end +:+ " FROM " +:+ render_table_name (__table__ m).

Definition add_where (w : option Expr)
    (st : string * gmap string PyValue * Compiler) : string * gmap string PyValue * Compiler :=
  let '(sql, params, self) := st in
  match w with
  | Some w =>
      let '(ws, wp, self) := to_sql w self in
      (sql +:+ " WHERE " +:+ ws, wp ∪ params, self)
  | None => st
  end.

Definition add_order (ob : option (list (string * string)))
    (st : string * gmap string PyValue * Compiler) : string * gmap string PyValue * Compiler :=
  let '(sql, params, self) := st in
  if truthy_list ob then
    (sql +:+ " ORDER BY " +:+
       join ", " (map (λ '(col, direction), quote_ident col +:+ " " +:+ direction)
                      (default [] ob)),
     params, self)
  else st.

Definition add_paging (kw : string) (v : option Z)
    (st : string * gmap string PyValue * Compiler) : string * gmap string PyValue * Compiler :=
  let '(sql, params, self) := st in
  match v with
  | Some n =>
      let '(p, self) := add_param self (PyInt n) in
      (sql +:+ kw +:+ placeholder p, <[ p := PyInt n ]> params, self)
  | None => st
  end.

(** What the pipeline keeps true from the counter value [i] on: after [n]
    allocations the text has the fragments [p_i], ..., [p_(i+n-1)], the
    parameters are bound under these names, and the counter is [i + n]. *)
Definition allocated (i n : nat) (st : string * gmap string PyValue * Compiler) : Prop :=
  closed_frag st.1.1 (pnames i n)
  ∧ dom st.1.2 = list_to_set (pnames i n)
  ∧ _i st.2 = i + n.

(** Two states with the same text, the same counter and the same names
    bound. *)
Definition same_text (st1 st2 : string * gmap string PyValue * Compiler) : Prop :=
  st1.1.1 = st2.1.1 ∧ st1.2 = st2.2 ∧ dom st1.1.2 = dom st2.1.2.

(** The number of allocations of one compilation. *)
Definition allocations (w : option Expr) (limit offset : option Z) : nat :=
  match w with Some e => literals e | None => 0 end
  + (match limit with Some _ => 1 | None => 0 end)
  + (match offset with Some _ => 1 | None => 0 end).

(** ** Sample inputs *)

Definition plain_model (table : string) (columns : list (string * Column)) : Model :=
  {| __table__ := table; __columns__ := columns; __engine__ := None;
     __order_by__ := None; __partition_by__ := None; __primary_key__ := None;
     __ttl__ := None; __settings__ := None; __indexes__ := None; __comment__ := None |}.

Definition column (n : string) (t : CHType) : string * Column :=
  (n, {| ch_type := TObj t; primary_key := false; name := n |}).

(** The table of the spec's scenarios: [events] with [id] and [ts]. *)
Definition events : Model :=
  plain_model "events" [column "id" UInt64; column "ts" (DateTime64 3)].

Definition events_columns : list (string * TypeArg) :=
  [("id", TObj UInt64); ("ts", TObj (DateTime64 3))].

Definition users : Model :=
  plain_model "users" [column "id" UInt64; column "name" String_].

(** [users.id == 5] and the same comparison with a hostile text. *)
Definition id_is_5 : Expr := BinaryExpr (ColumnExpr "id") "=" (ValueExpr (PyInt 5)).
Definition id_is_hostile : Expr :=
  BinaryExpr (ColumnExpr "id") "=" (ValueExpr (PyStr "'; DROP TABLE users; --")).

(** [session.query(users).filter(users.id == 5).limit(10)] *)
Definition paged_query : Query := q_limit (filter (new_Query users) (FExpr id_is_5)) 10.

(** [session.query(users).filter("x = %(p9)s")] *)
Definition raw_query : Query := filter (new_Query users) (FStr "x = %(p9)s").

(** [create_table] with an ordering key and no column. *)
Definition ordered_options : TableOptions :=
  {| engine := "MergeTree"; order_by := Some ["x"]; partition_by := None;
     opt_primary_key := None; ttl := None; indexes := None; settings := None;
     if_not_exists := true; comment := None |}.

(** One more link of a filter chain. *)
Definition and_with (acc : Expr) (p : Pred) : Expr := LogicalExpr acc "AND" (pred_expr p).

(** The directives with another ordering key. *)
Definition with_order_by (ob : option (list string)) (o : TableOptions) : TableOptions :=
  {| engine := engine o; order_by := ob; partition_by := partition_by o;
     opt_primary_key := opt_primary_key o; ttl := ttl o;
     indexes := indexes o; settings := settings o;
     if_not_exists := if_not_exists o; comment := comment o |}.

(** * More of the package *)

(** ** query.py: [first] *)

(** [first]: the query as the call leaves it (the call writes [_limit]) and
    the statement and parameters that [all] then hands to
    [engine.execute]. *)
Definition first (self : Query) : Query * (string * gmap string PyValue) :=
  let self :=
    match _limit self with
    | None => q_limit self 1
    | Some n => if (1 <? n)%Z then q_limit self 1 else self
    end in
  (self, all self).

(** ** engine.py: the session *)

(** A target is a model class or a table text:
    [getattr(target, "__table__", target) if not isinstance(target, str) else target]. *)
Inductive Target : Type :=
  | TModel (m : Model)
  | TName (s : string).

Definition target_table (t : Target) : string :=
  match t with
  | TModel m => __table__ m
  | TName s => s
  end.

(** [_model_columns]: for a table text the names are read from the
    server's answer to DESCRIBE TABLE, here the argument [described]. *)
Definition _model_columns (model_or_table : Target) (described : list string) : list string :=
  match model_or_table with
  | TName _ => described
  | TModel m => map (λ '(_, c), name c) (__columns__ m)
  end.

(** [columns or self.engine._model_columns(target)] *)
Definition resolve_columns (target : Target) (columns : option (list string))
    (described : list string) : list string :=
  if truthy_list columns then default [] columns else _model_columns target described.

(** [f"v_{i}_{j}"] *)
Definition vname (i j : nat) : string := "v_" +:+ pretty i +:+ "_" +:+ pretty j.

(** [enumerate(l)] *)
Definition enumerate {A} (l : list A) : list (nat * A) := imap (λ i x, (i, x)) l.

(** [insert_rows]: the statement and the parameters handed to
    [_client.command]. *)
Definition insert_rows (target : Target) (rows : list (list PyValue))
    (columns : option (list string)) (described : list string)
    : string * gmap string PyValue :=
  let tbl := render_table_name (target_table target) in
  let cols := resolve_columns target columns described in
  let cols_quoted := join ", " (map quote_ident cols) in
  let values_sql :=
    join ", "
      (map (λ '(i, _),
         "(" +:+ join ", " (map (λ '(j, _), placeholder (vname i j)) (enumerate cols)) +:+ ")")
         (enumerate rows)) in
  let params : gmap string PyValue :=
    foldl (λ params '(i, row),
             foldl (λ params '(j, v), <[vname i j := v]> params) params (enumerate row))
          ∅ (enumerate rows) in
  ("INSERT INTO " +:+ tbl +:+ " (" +:+ cols_quoted +:+ ") VALUES " +:+ values_sql, params).

(** [sorted({k for d in items for k in d.keys()})]: the keys of all items,
    each once, in the order of [str] (by code point). *)
Definition sorted_keys (items : list (gmap string PyValue)) : list string :=
  merge_sort String.le (elements (⋃ (dom <$> items) : gset string)).

(** [insert_dicts]; [d.get(c)] is [None] for a missing key. *)
Definition insert_dicts (target : Target) (items : list (gmap string PyValue))
    (columns : option (list string)) (described : list string)
    : string * gmap string PyValue :=
  let cols := if truthy_list columns then default [] columns else sorted_keys items in
  let rows := map (λ d, map (λ c, default PyNone (d !! c)) cols) items in
  insert_rows target rows (Some cols) described.

(** The [select] argument of [insert_from_select]: a text, or a [Query]
    (the object with an attribute [all]). *)
Inductive SelectArg : Type :=
  | SelectText (s : string)
  | SelectQuery (q : Query).

(** [insert_from_select]: the statement and the parameters handed to
    [_client.command]. *)
Definition insert_from_select (target : Target) (select_ : SelectArg)
    (columns : option (list string)) (described : list string)
    : string * gmap string PyValue :=
  let tbl := render_table_name (target_table target) in
  let '(sql_sel, params) :=
    match select_ with
    | SelectQuery q =>
        let comp := new_Compiler in
        let '(sql_sel, params, _) :=
          select comp (model q) (_where q) (_order_by q) (_limit q) (_offset q) in
        (sql_sel, params)
    | SelectText s => (s, ∅)
    end in
  let cols := resolve_columns target columns described in
  let cols_quoted := join ", " (map quote_ident cols) in
  ("INSERT INTO " +:+ tbl +:+ " (" +:+ cols_quoted +:+ ") " +:+ sql_sel, params).

(** ** insert_builder.py: [execute] *)

(** [InsertBuilder.execute]: what [insert_from_select] hands to
    [_client.command], or the exception of [compile]. *)
Definition execute (self : InsertBuilder) (described : list string)
    : result (string * gmap string PyValue) :=
  match compile self with
  | Raise e => Raise e
  | Ok (_, select_sql) =>
      Ok (insert_from_select (TName (target self)) (SelectText select_sql)
            (Some (map fst (_mapping self))) described)
  end.

(** ** engine.py: [generate_model] and [_derive_class_name_from_table] *)

(** One row of DESCRIBE TABLE: the keys [name], [column] and [type], each
    of which may be missing. *)
Record DescRow : Type := {
  d_name : option string;
  d_column : option string;
  d_type : option string
}.

(** A value of the dict [attrs]: the table text, or [Column(ty)]. *)
Inductive Attr : Type :=
  | AttrText (s : string)
  | AttrColumn (ty : CHType).

(** [d[k] = v] on a dict in insertion order: an existing key keeps its
    place. *)
Fixpoint dict_set {A} (k : string) (v : A) (d : list (string * A)) : list (string * A) :=
  match d with
  | [] => [(k, v)]
  | (k', v') :: d' =>
      if bool_decide (k' = k) then (k, v) :: d' else (k', v') :: dict_set k v d'
  end.

(** [x or y] on texts that may be missing *)
Definition or_else (x : option string) (y : string) : string :=
  match x with
  | Some (String c r) => String c r
  | _ => y
  end.

(** The loop of [generate_model] over the described columns. *)
Fixpoint describe_loop (desc : list DescRow) (attrs : list (string * Attr))
    : result (list (string * Attr)) :=
  match desc with
  | [] => Ok attrs
  | col :: rest =>
      let name := or_else (d_name col) (default "unnamed" (d_column col)) in
      let ch_type_str := or_else (d_type col) "" in
      match _parse_ch_type ch_type_str with
      | Raise e => Raise e
      | Ok ty => describe_loop rest (dict_set name (AttrColumn ty) attrs)
      end
  end.

(** The dict [attrs] that [generate_model] builds from the described
    columns and passes to [type(cls_name, (Base,), attrs)], past the cache
    lookup; or the exception that the loop raises. *)
Definition generate_model_attrs (table : string) (desc : list DescRow)
    : result (list (string * Attr)) :=
  describe_loop desc [("__table__", AttrText table)].

(** The class [[0-9A-Za-z]] of the pattern. *)
Definition is_alnum (c : ascii) : bool :=
  let n := code c in
  ((48 <=? n) && (n <=? 57) || (65 <=? n) && (n <=? 90) || (97 <=? n) && (n <=? 122))%N.

(** [re.split(r"[^0-9A-Za-z]+", s)]: the texts between the maximal runs
    of other characters, the empty ones at both ends included. *)
Fixpoint re_split_nonalnum (s : string) : list string :=
  match s with
  | "" => [""]
  | String c s' =>
      if is_alnum c then
        match re_split_nonalnum s' with
        | p :: ps => String c p :: ps
        | [] => [String c ""]
        end
      else
        match s' with
        | String d _ => if is_alnum d then "" :: re_split_nonalnum s' else re_split_nonalnum s'
        | "" => "" :: re_split_nonalnum s'
        end
  end.

(** [str.upper] on one of the letters a-z, the only ones a part can start
    with. *)
Definition upper_char (c : ascii) : ascii :=
  let n := code c in
  if ((97 <=? n) && (n <=? 122))%N then ascii_of_N (n - 32) else c.

(** [p.capitalize()] *)
Definition capitalize (p : string) : string :=
  match p with
  | "" => ""
  | String c r => String (upper_char c) (lower r)
  end.

(** ["".join(parts)] *)
Fixpoint concat_str (parts : list string) : string :=
  match parts with
  | [] => ""
  | p :: rest => p +:+ concat_str rest
  end.

Definition nonempty (s : string) : bool :=
  match s with
  | "" => false
  | _ => true
  end.

Definition _derive_class_name_from_table (table : string) : string :=
  let s := strip_any_quotes table in
  let s := if contains_char dot s then (split_once dot s).2 else s in
  let parts := re_split_nonalnum s in
  let cand := concat_str (map capitalize (List.filter nonempty parts)) in
  match cand with
  | "" => "AutoTable"
  | _ => cand
  end.

(** ** Notions used to state the properties of this part *)

(** The literal values of a tree, from left to right. *)
Fixpoint values (e : Expr) : list PyValue :=
  match e with
  | ValueExpr v => [v]
  | BinaryExpr l _ r | LogicalExpr l _ r => values l ++ values r
  | ColumnExpr _ | _Raw _ => []
  end.

(** The values that one compilation binds, in the order of allocation:
    the literals of the filter tree, then the limit, then the offset. *)
Definition bound_values (w : option Expr) (limit offset : option Z) : list PyValue :=
  match w with Some e => values e | None => [] end
  ++ match limit with Some n => [PyInt n] | None => [] end
  ++ match offset with Some n => [PyInt n] | None => [] end.

(** The parameter map that binds the values [vs] under the names issued
    from the counter value [i] on. *)
Definition bindings (i : nat) (vs : list PyValue) : gmap string PyValue :=
  list_to_map (zip (pnames i (length vs)) vs).

(** Texts made of the characters [0-9A-Za-z] only. *)
Fixpoint alnum_only (s : string) : bool :=
  match s with
  | "" => true
  | String c s' => is_alnum c && alnum_only s'
  end.

(** The directives that [create_table_from_model] reads off a model. *)
Definition model_options (m : Model) (if_not_exists : bool) : TableOptions :=
  {| engine := default "MergeTree" (__engine__ m);
     order_by := __order_by__ m;
     partition_by := __partition_by__ m;
     opt_primary_key := __primary_key__ m;
     ttl := __ttl__ m;
     indexes := __indexes__ m;
     settings := __settings__ m;
     if_not_exists := if_not_exists;
     comment := __comment__ m |}.

(** The column mapping [{c.name: c.ch_type for c in columns}] of a model's
    columns: a name that comes again replaces the type at its place. *)
Definition model_columns_dict (m : Model) : list (string * TypeArg) :=
  foldl (λ d '(_, c), dict_set (name c) (ch_type c) d) [] (__columns__ m).

(** Texts of code points below 128. *)
Fixpoint ascii_only (s : string) : bool :=
  match s with
  | "" => true
  | String c s' => (code c <? 128)%N && ascii_only s'
  end.

(** A described row with a name and a type text. *)
Definition desc_row (n ty : string) : DescRow :=
  {| d_name := Some n; d_column := None; d_type := Some ty |}.

(** ** More sample inputs *)

(** [events] with an ordering key. *)
Definition ordered_events : Model :=
  {| __table__ := "events";
     __columns__ := [column "id" UInt64; column "ts" (DateTime64 3)];
     __engine__ := None; __order_by__ := Some ["ts"; "id"]; __partition_by__ := None;
     __primary_key__ := None; __ttl__ := None; __settings__ := None;
     __indexes__ := None; __comment__ := None |}.

(** The columns of a described table. *)
Definition described_events : list (string * CHType) :=
  [("id", UInt64); ("ts", DateTime64 3); ("tags", Array (LowCardinality String_))].

(** Two rows for [users], and two items with different keys. *)
Definition two_rows : list (list PyValue) :=
  [[PyInt 1; PyStr "a"]; [PyInt 2; PyStr "b"]].

Definition two_items : list (gmap string PyValue) :=
  [{["name" := PyStr "a"]}; {["id" := PyInt 2]}].

(** * Properties *)

#[local] Arguments String.append !s1 s2 / : simpl nomatch.
#[local] Set Warnings "-clear-no-such-hyp".

(** ** The scenarios of the specification *)

Example quote_ident_scenario :
  quote_ident ("My " +:+ DQ +:+ "Table" +:+ DQ)
  = DQ +:+ "My " +:+ DQ +:+ DQ +:+ "Table" +:+ DQ +:+ DQ +:+ DQ.
Proof. reflexivity. Qed.

Example render_table_name_compound :
  render_table_name " db.tbl " = DQ +:+ "db" +:+ DQ +:+ "." +:+ DQ +:+ "tbl" +:+ DQ.
Proof. reflexivity. Qed.

Example parse_nested_scenario :
  _parse_ch_type "Nullable(Array(Decimal(10,2)))" = Ok (Nullable (Array (Decimal 10 2))).
Proof. by vm_compute. Qed.

Example parse_spaced_wrappers :
  _parse_ch_type " nullable ( lowcardinality(fixedString ( 12 ) ) )"
  = Ok (Nullable (LowCardinality (FixedString 12))).
Proof. by vm_compute. Qed.

Example parse_first_word_only : _parse_ch_type "dateTime junk" = Ok DateTime.
Proof. by vm_compute. Qed.

Example select_scenario :
  all (q_limit (filter (filter (new_Query users) (FExpr id_is_5))
                  (FExpr (BinaryExpr (ColumnExpr "name") "LIKE" (ValueExpr (PyStr "a%"))))) 10)
  = ("SELECT " +:+ DQ +:+ "id" +:+ DQ +:+ ", " +:+ DQ +:+ "name" +:+ DQ +:+ " FROM "
       +:+ DQ +:+ "users" +:+ DQ +:+ " WHERE ((" +:+ DQ +:+ "id" +:+ DQ +:+ " = %(p0)s) AND ("
       +:+ DQ +:+ "name" +:+ DQ +:+ " LIKE %(p1)s)) LIMIT %(p2)s",
     <["p2" := PyInt 10]> ({["p1" := PyStr "a%"]} ∪ ({["p0" := PyInt 5]} ∪ ∅))).
Proof. by vm_compute. Qed.

(** ** Strings *)

Section strings.
Implicit Types (s t u : string) (c d : ascii).

Lemma str_app_nil_r s : s +:+ "" = s.
Proof. induction s; simpl; congruence. Qed.

Lemma str_app_assoc s t u : (s +:+ t) +:+ u = s +:+ (t +:+ u).
Proof. induction s; simpl; congruence. Qed.

Lemma str_length_app s t : String.length (s +:+ t) = String.length s + String.length t.
Proof. induction s; simpl; lia. Qed.

Lemma last_char_snoc s c : last_char (s +:+ String c "") = Some c.
Proof.
  induction s as [|d s IH]; [done|]. simpl.
  destruct (s +:+ String c "") eqn:E; [by destruct s|]. by rewrite <-IH.
Qed.

Lemma drop_last_snoc s c : drop_last (s +:+ String c "") = s.
Proof.
  induction s as [|d s IH]; [done|]. simpl.
  destruct (s +:+ String c "") eqn:E; [by destruct s|]. by rewrite IH.
Qed.

Lemma last_char_drop_last s c : last_char s = Some c → s = drop_last s +:+ String c "".
Proof.
  induction s as [|d s IH]; [done|]. simpl.
  destruct s as [|e s]; [by intros [= ->]|].
  intros H. simpl. f_equal. by apply IH.
Qed.

Lemma endswith_snoc c s d : endswith c (s +:+ String d "") = bool_decide (d = c).
Proof. unfold endswith. by rewrite last_char_snoc. Qed.

Lemma contains_char_app c s t :
  contains_char c (s +:+ t) = contains_char c s || contains_char c t.
Proof. induction s as [|d s IH]; [done|]. simpl. rewrite IH. by destruct (bool_decide _). Qed.

Lemma length_lstrip s : String.length (lstrip s) ≤ String.length s.
Proof. induction s as [|c s IH]; simpl; [lia|]. destruct (is_space c); simpl; lia. Qed.

Lemma length_rstrip s : String.length (rstrip s) ≤ String.length s.
Proof.
  induction s as [|c s IH]; simpl; [lia|].
  destruct (rstrip s); [destruct (is_space c)|]; simpl in *; lia.
Qed.

Lemma length_strip s : String.length (strip s) ≤ String.length s.
Proof. unfold strip. etrans; [apply length_rstrip|apply length_lstrip]. Qed.

Lemma length_drop_last s : s ≠ "" → S (String.length (drop_last s)) = String.length s.
Proof.
  induction s as [|c s IH]; [done|]. intros _. simpl.
  destruct s; [done|]. simpl in *. rewrite IH; done.
Qed.

Lemma rstrip_snoc s c : is_space c = false → rstrip (s +:+ String c "") = s +:+ String c "".
Proof.
  intros Hc. induction s as [|d s IH]; simpl; [by rewrite Hc|].
  rewrite IH. by destruct s.
Qed.

Lemma rstrip_cons_nonspace c s : is_space c = false → ∃ r, rstrip (String c s) = String c r.
Proof. intros Hc. simpl. destruct (rstrip s); [rewrite Hc|]; eauto. Qed.

Lemma rstrip_idemp s : rstrip (rstrip s) = rstrip s.
Proof.
  induction s as [|c s IH]; [done|]. simpl.
  destruct (rstrip s) as [|d r] eqn:E.
  - destruct (is_space c) eqn:Hc; [done|]. simpl. by rewrite Hc.
  - change (rstrip (String c (String d r))) with
      (match rstrip (String d r) with
       | "" => if is_space c then "" else String c ""
       | r' => String c r' end).
    by rewrite IH.
Qed.

Lemma lstrip_nonspace s :
  match s with String c _ => is_space c = false | "" => True end → lstrip s = s.
Proof. destruct s as [|c s]; [done|]. simpl. by intros ->. Qed.

Lemma lstrip_head s :
  match lstrip s with String c _ => is_space c = false | "" => True end.
Proof. induction s as [|c s IH]; [done|]. simpl. destruct (is_space c) eqn:E; done. Qed.

Lemma lstrip_strip s : lstrip (strip s) = strip s.
Proof.
  unfold strip. pose proof (lstrip_head s) as H.
  destruct (lstrip s) as [|c r]; [done|].
  destruct (rstrip_cons_nonspace c r H) as [r' E]. rewrite E.
  apply lstrip_nonspace. exact H.
Qed.

Lemma strip_idemp s : strip (strip s) = strip s.
Proof. unfold strip at 1. rewrite lstrip_strip. apply rstrip_idemp. Qed.

Lemma strip_clean c s d :
  is_space c = false → is_space d = false →
  strip (String c (s +:+ String d "")) = String c (s +:+ String d "").
Proof.
  intros Hc Hd. unfold strip. rewrite lstrip_nonspace; [|exact Hc].
  apply (rstrip_snoc (String c s) d Hd).
Qed.

Lemma split_once_spec c s :
  contains_char c s = true →
  s = (split_once c s).1 +:+ String c (split_once c s).2
  ∧ contains_char c (split_once c s).1 = false.
Proof.
  induction s as [|d s IH]; [done|]. simpl.
  case_bool_decide as Hd; simpl.
  - subst. done.
  - intros H. destruct (IH H) as [E1 E2]. destruct (split_once c s) as [a b]. simpl in *.
    split; [by f_equal|]. by rewrite bool_decide_eq_false_2.
Qed.
End strings.

(** ** dialect.py *)

Lemma unquote_body_double raw : unquote_body (double_char dq raw +:+ DQ) = Some raw.
Proof.
  induction raw as [|c raw IH]; [done|]. simpl.
  case_bool_decide as Hc; simpl.
  - rewrite IH. simpl. by subst.
  - rewrite ?bool_decide_eq_false_2 by done. by rewrite IH.
Qed.

Lemma unquote_quote_ident name : unquote (quote_ident name) = Some (strip_any_quotes name).
Proof. unfold quote_ident. simpl. apply unquote_body_double. Qed.

Lemma one_layer_strip_any_quotes name :
  (∃ q, is_quote q ∧ strip name = String q "")
  ∨ one_layer (strip name) (strip_any_quotes name).
Proof.
  unfold strip_any_quotes. destruct name as [|c0 name0]; [right; right; by split|].
  set (s := strip _).
  assert (∀ q, startswith q s && endswith q s = true →
            s = String q "" ∨ s = String q (slice_1_m1 s) +:+ String q "") as Hq.
  { intros q [H1 H2]%andb_true_iff. destruct s as [|c r]; [done|].
    simpl in H1. apply bool_decide_eq_true in H1 as ->.
    unfold endswith in H2. destruct (last_char (String q r)) as [d|] eqn:E; [|done].
    apply bool_decide_eq_true in H2 as ->.
    destruct r as [|c r]; [by left|right].
    unfold slice_1_m1. simpl tail. simpl. f_equal.
    apply (last_char_drop_last (String c r) q). exact E. }
  destruct (startswith dq s && endswith dq s) eqn:E1; simpl.
  { destruct (Hq _ E1) as [?|?]; [left|right; left]; exists dq; unfold is_quote; eauto. }
  destruct (startswith bq s && endswith bq s) eqn:E2; simpl.
  { destruct (Hq _ E2) as [?|?]; [left|right; left]; exists bq; unfold is_quote; eauto. }
  destruct (startswith sq s && endswith sq s) eqn:E3; simpl.
  { destruct (Hq _ E3) as [?|?]; [left|right; left]; exists sq; unfold is_quote; eauto. }
  right; right. split; [done|]. by intros q [->|[->| ->]].
Qed.

Lemma lone_quote_stripped name q :
  is_quote q → strip name = String q "" → strip_any_quotes name = "".
Proof.
  intros Hq E. unfold strip_any_quotes. destruct name as [|c0 name0]; [done|].
  rewrite E. by destruct Hq as [->|[->| ->]].
Qed.

(** C4, amended: [quote_ident] returns for every name, and what it returns is
    one opening double quote, the stripped name with each of its double
    quotes doubled, and one closing double quote, so that reading the result
    back as a quoted identifier gives the stripped name.  The stripped name
    of every name is settled by the name with the whitespace around it
    removed: when this is one quote character alone, the stripped name is
    empty; when it begins and ends with the same quote character, the
    stripped name is what lies between the two; otherwise the stripped name
    is the trimmed name itself. *)
Theorem quote_ident_wraps_and_doubles (name : string) :
  quote_ident name = DQ +:+ double_char dq (strip_any_quotes name) +:+ DQ
  ∧ unquote (quote_ident name) = Some (strip_any_quotes name)
  ∧ ((∃ q, is_quote q ∧ strip name = String q "" ∧ strip_any_quotes name = ""
           ∧ quote_ident name = DQ +:+ DQ)
     ∨ one_layer (strip name) (strip_any_quotes name)).
Proof.
  split; [done|]. split; [apply unquote_quote_ident|].
  destruct (one_layer_strip_any_quotes name) as [(q & Hq & E)|H]; [left|by right].
  exists q. pose proof (lone_quote_stripped name q Hq E) as Hs.
  split; [done|]. split; [done|]. split; [done|]. unfold quote_ident. by rewrite Hs.
Qed.

(** C4 as stated fails: a name with a leading blank is quoted without the
    blank, which is neither the name nor the name less a pair of quotes. *)
Lemma quote_ident_untrimmed_fails :
  ¬ ∃ raw, one_layer (" a" +:+ DQ +:+ "b") raw
           ∧ quote_ident (" a" +:+ DQ +:+ "b") = DQ +:+ double_char dq raw +:+ DQ.
Proof.
  intros (raw & [(q & Hq & E)|[-> _]] & H).
  - injection E as E _. destruct Hq as [->|[->| ->]]; discriminate.
  - vm_compute in H. discriminate.
Qed.

Lemma strip_any_quotes_strip name : strip_any_quotes (strip name) = strip_any_quotes name.
Proof.
  unfold strip_any_quotes. rewrite strip_idemp.
  destruct name as [|c n]; [done|]. destruct (strip (String c n)) eqn:E; done.
Qed.

Lemma quote_ident_strip name : quote_ident (strip name) = quote_ident name.
Proof. unfold quote_ident. by rewrite strip_any_quotes_strip. Qed.

(** C5, amended: a name with at least one dot (after the whitespace around it
    is removed) is split at its first dot into two parts, none in the first
    part, each part quoted by [quote_ident] and the two joined by a dot; a
    name without a dot is quoted as one identifier. *)
Theorem render_table_name_first_dot (name : string) :
  let s := strip name in
  if contains_char dot s then
    render_table_name name
      = quote_ident (split_once dot s).1 +:+ "." +:+ quote_ident (split_once dot s).2
    ∧ s = (split_once dot s).1 +:+ "." +:+ (split_once dot s).2
    ∧ contains_char dot (split_once dot s).1 = false
  else render_table_name name = quote_ident name.
Proof.
  intros s. unfold render_table_name. fold s.
  destruct (contains_char dot s) eqn:E.
  - destruct (split_once_spec dot s E) as [E1 E2].
    destruct (split_once dot s) as [db tbl]. done.
  - apply quote_ident_strip.
Qed.

(** C5 as stated fails: a name with two dots is split at the first one. *)
Lemma render_table_name_two_dots :
  render_table_name "a.b.c" ≠ quote_ident "a.b.c"
  ∧ render_table_name "a.b.c" = quote_ident "a" +:+ "." +:+ quote_ident "b.c".
Proof. split; [vm_compute; discriminate|reflexivity]. Qed.

(** ** Characters and numerals *)

Lemma digit_not_space c : is_digit c = true → is_space c = false.
Proof. destruct c as [[] [] [] [] [] [] [] []]; vm_compute; congruence. Qed.

Lemma pretty_N_char_digit x :
  (x < 10)%N → is_digit (pretty_N_char x) = true ∧ digit_val (pretty_N_char x) = x.
Proof.
  intros Hx.
  assert (x = 0 ∨ x = 1 ∨ x = 2 ∨ x = 3 ∨ x = 4 ∨ x = 5 ∨ x = 6 ∨ x = 7 ∨ x = 8 ∨ x = 9)%N
    as H by lia.
  repeat destruct H as [->|H]; try subst x; by vm_compute.
Qed.

Lemma digits_only_app s t : digits_only (s +:+ t) = digits_only s && digits_only t.
Proof. induction s as [|c s IH]; [done|]. simpl. by rewrite IH, andb_assoc. Qed.

Lemma no_space_app s t : no_space (s +:+ t) = no_space s && no_space t.
Proof. induction s as [|c s IH]; [done|]. simpl. by rewrite IH, andb_assoc. Qed.

Lemma digits_only_no_space s : digits_only s = true → no_space s = true.
Proof.
  induction s as [|c s IH]; [done|]. simpl. intros [Hc Hs]%andb_true_iff.
  by rewrite (digit_not_space c Hc), IH.
Qed.

Lemma int_acc_snoc acc d c :
  int_acc acc (d +:+ String c "") = (int_acc acc d * 10 + digit_val c)%N.
Proof. revert acc. induction d as [|e d IH]; intros acc; [done|]. simpl. apply IH. Qed.

Lemma pretty_N_go_app x s : pretty_N_go x s = pretty_N_go x "" +:+ s.
Proof.
  revert s. induction (N.lt_wf_0 x) as [x _ IH]; intros s.
  destruct (decide (x = 0)%N) as [->|Hx]; [by rewrite !pretty_N_go_0|].
  rewrite !(pretty_N_go_step x) by lia.
  rewrite (IH (x `div` 10)%N) by (apply N.div_lt; lia).
  rewrite (IH (x `div` 10)%N ltac:(apply N.div_lt; lia) (String _ "")).
  by rewrite str_app_assoc.
Qed.

Lemma pretty_N_go_digits x :
  digits_only (pretty_N_go x "") = true ∧ int (pretty_N_go x "") = x.
Proof.
  induction (N.lt_wf_0 x) as [x _ IH].
  destruct (decide (x = 0)%N) as [->|Hx]; [by rewrite pretty_N_go_0|].
  rewrite (pretty_N_go_step x) by lia. rewrite pretty_N_go_app.
  destruct (IH (x `div` 10)%N ltac:(apply N.div_lt; lia)) as [H1 H2].
  destruct (pretty_N_char_digit (x `mod` 10)%N ltac:(apply N.mod_lt; lia)) as [H3 H4].
  split.
  - rewrite digits_only_app, H1. simpl. by rewrite H3.
  - unfold int in *. rewrite int_acc_snoc, H2, H4.
    rewrite (N.div_mod x 10) at 3 by lia. lia.
Qed.

Lemma pretty_N_nonempty (x : N) : pretty x ≠ "".
Proof.
  unfold pretty, pretty_N. case_decide as Hx; [done|].
  rewrite pretty_N_go_step by lia. rewrite pretty_N_go_app.
  destruct (pretty_N_go _ ""); done.
Qed.

Lemma pretty_N_digits (x : N) : digits_only (pretty x) = true.
Proof. unfold pretty, pretty_N. case_decide; [done|]. apply pretty_N_go_digits. Qed.

Lemma int_pretty (x : N) : int (pretty x) = x.
Proof. unfold pretty, pretty_N. case_decide; [by subst|]. apply pretty_N_go_digits. Qed.

(** ** Pieces of the patterns on rendered text *)

Lemma take_digits_stop d c r :
  digits_only d = true → is_digit c = false →
  take_digits (d +:+ String c r) = (d, String c r).
Proof.
  intros Hd Hc. induction d as [|e d IH]; simpl; [by rewrite Hc|].
  simpl in Hd. apply andb_true_iff in Hd as [He Hd]. by rewrite He, IH.
Qed.

Lemma digits1_stop d c r :
  digits_only d = true → d ≠ "" → is_digit c = false →
  digits1 (d +:+ String c r) = Some (d, String c r).
Proof.
  intros Hd Hne Hc. unfold digits1. rewrite take_digits_stop by done. by destruct d.
Qed.

Lemma skip_ws_digits d r :
  digits_only d = true → d ≠ "" → skip_ws (d +:+ r) = d +:+ r.
Proof.
  intros Hd Hne. destruct d as [|c d]; [done|]. simpl in *.
  apply andb_true_iff in Hd as [Hc _]. by rewrite (digit_not_space c Hc).
Qed.

Lemma dotstar_close_paren r :
  contains_char nl r = false → dotstar_close (r +:+ ")") = Some r.
Proof.
  intros Hr. unfold dotstar_close. rewrite endswith_snoc.
  rewrite bool_decide_eq_false_2 by done.
  rewrite endswith_snoc, bool_decide_eq_true_2 by done.
  by rewrite drop_last_snoc, Hr.
Qed.

Lemma no_space_no_newline s : no_space s = true → contains_char nl s = false.
Proof.
  induction s as [|c s IH]; [done|]. simpl. intros [Hc Hs]%andb_true_iff.
  rewrite IH by done. case_bool_decide; [subst; done|done].
Qed.

Lemma rstrip_no_space s : no_space s = true → rstrip s = s.
Proof.
  induction s as [|c s IH]; [done|]. simpl. intros [Hc Hs]%andb_true_iff.
  rewrite IH by done. apply negb_true_iff in Hc. destruct s; by rewrite ?Hc.
Qed.

Lemma strip_no_space s : no_space s = true → strip s = s.
Proof.
  intros H. unfold strip. rewrite lstrip_nonspace.
  - by apply rstrip_no_space.
  - destruct s; [done|]. simpl in H. apply andb_true_iff in H as [H _].
    by apply negb_true_iff.
Qed.

Section patterns.
Variables (d1 d2 : string).
Hypothesis (H1 : digits_only d1 = true) (N1 : d1 ≠ "").
Hypothesis (H2 : digits_only d2 = true) (N2 : d2 ≠ "").

Lemma _RE_DECIMAL_rendered :
  _RE_DECIMAL ("Decimal(" +:+ d1 +:+ "," +:+ d2 +:+ ")") = Some (d1, d2).
Proof.
  unfold _RE_DECIMAL. simpl.
  rewrite skip_ws_digits by done.
  rewrite (digits1_stop d1 "," _) by done. simpl.
  rewrite skip_ws_digits by done.
  rewrite (digits1_stop d2 ")" _) by done. done.
Qed.

Lemma _RE_FIXED_rendered : _RE_FIXED ("FixedString(" +:+ d1 +:+ ")") = Some d1.
Proof.
  unfold _RE_FIXED, re_one_number. simpl.
  rewrite skip_ws_digits by done.
  rewrite (digits1_stop d1 ")" _) by done. done.
Qed.

Lemma _RE_DT64_rendered : _RE_DT64 ("DateTime64(" +:+ d1 +:+ ")") = Some d1.
Proof.
  unfold _RE_DT64, re_one_number. simpl.
  rewrite skip_ws_digits by done.
  rewrite (digits1_stop d1 ")" _) by done. done.
Qed.
End patterns.

Lemma _RE_WRAP1_nullable r :
  contains_char nl r = false → _RE_WRAP1 ("Nullable(" +:+ r +:+ ")") = Some ("nullable", r).
Proof. intros H. unfold _RE_WRAP1. simpl. rewrite dotstar_close_paren by done. reflexivity. Qed.

Lemma _RE_WRAP1_array r :
  contains_char nl r = false → _RE_WRAP1 ("Array(" +:+ r +:+ ")") = Some ("array", r).
Proof. intros H. unfold _RE_WRAP1. simpl. rewrite dotstar_close_paren by done. reflexivity. Qed.

Lemma _RE_WRAP1_lowcardinality r :
  contains_char nl r = false →
  _RE_WRAP1 ("LowCardinality(" +:+ r +:+ ")") = Some ("lowcardinality", r).
Proof. intros H. unfold _RE_WRAP1. simpl. rewrite dotstar_close_paren by done. reflexivity. Qed.

(** ** The renderer's output *)

Lemma no_space_pretty (x : N) : no_space (pretty x) = true.
Proof. apply digits_only_no_space, pretty_N_digits. Qed.

Lemma render_no_space t : no_space (render_chtype t) = true.
Proof.
  induction t; try done; cbn [render_chtype];
    rewrite !no_space_app, ?no_space_pretty, ?IHt; reflexivity.
Qed.

Lemma parse_leaf_rendered t :
  match t with Nullable _ | Array _ | LowCardinality _ => False | _ => True end →
  _RE_WRAP1 (render_chtype t) = None ∧ parse_leaf (render_chtype t) = Ok t.
Proof.
  destruct t; intros Ht; try done; try (by vm_compute).
  - split; [done|]. unfold parse_leaf. cbn [render_chtype].
    rewrite _RE_DECIMAL_rendered by auto using pretty_N_digits, pretty_N_nonempty.
    by rewrite !int_pretty.
  - split; [done|]. unfold parse_leaf. cbn [render_chtype].
    change (_RE_DECIMAL _) with (@None (string * string)).
    rewrite _RE_FIXED_rendered by auto using pretty_N_digits, pretty_N_nonempty.
    by rewrite !int_pretty.
  - split; [done|]. unfold parse_leaf. cbn [render_chtype].
    change (_RE_DECIMAL _) with (@None (string * string)).
    change (_RE_FIXED _) with (@None string).
    rewrite _RE_DT64_rendered by auto using pretty_N_digits, pretty_N_nonempty.
    by rewrite !int_pretty.
Qed.

Lemma parse_ch_type_fuel_unfold fuel t :
  parse_ch_type_fuel fuel t =
  match _RE_WRAP1 (strip t) with
  | Some (wrap, group2) =>
      match fuel with
      | O => None
      | S fuel' =>
          match parse_ch_type_fuel fuel' (strip group2) with
          | None => None
          | Some (Raise e) => Some (Raise e)
          | Some (Ok inner) =>
              if bool_decide (wrap = "nullable") then Some (Ok (Nullable inner))
              else if bool_decide (wrap = "array") then Some (Ok (Array inner))
              else if bool_decide (wrap = "lowcardinality") then Some (Ok (LowCardinality inner))
              else Some (parse_leaf (strip t))
          end
      end
  | None => Some (parse_leaf (strip t))
  end.
Proof. by destruct fuel. Qed.

Lemma parse_rendered_fuel t :
  ∀ fuel, String.length (render_chtype t) ≤ fuel →
    parse_ch_type_fuel fuel (render_chtype t) = Some (Ok t).
Proof.
  assert (∀ t, contains_char nl (render_chtype t) = false) as Hnl
    by (intros; apply no_space_no_newline, render_no_space).
  induction t as [| | | | | | | | | | | | | | | | | | |inner IH|inner IH|inner IH];
    intros fuel Hfuel;
    rewrite parse_ch_type_fuel_unfold, (strip_no_space _ (render_no_space _));
    try (match goal with
         | |- context [parse_leaf (render_chtype ?t)] =>
             by destruct (parse_leaf_rendered t I) as [-> ->]
         end);
    cbn [render_chtype] in *; rewrite !str_length_app in Hfuel; simpl in Hfuel;
    (destruct fuel as [|fuel]; [lia|]).
  - rewrite _RE_WRAP1_nullable by done.
    rewrite (strip_no_space _ (render_no_space _)), IH by lia. done.
  - rewrite _RE_WRAP1_array by done.
    rewrite (strip_no_space _ (render_no_space _)), IH by lia. done.
  - rewrite _RE_WRAP1_lowcardinality by done.
    rewrite (strip_no_space _ (render_no_space _)), IH by lia. done.
Qed.

(** C2: parsing the rendered text of a Column Type gives the type back, for
    every leaf, every parameterized leaf and every nesting of wrappers. *)
Theorem parse_render_roundtrip (t : CHType) :
  _parse_ch_type (_render_type (TObj t)) = Ok t.
Proof.
  unfold _parse_ch_type, _render_type. by rewrite parse_rendered_fuel.
Qed.

(** ** The recursion of the parser ends *)

Lemma ci_prefix_length kw s r : ci_prefix kw s = Some r → String.length r ≤ String.length s.
Proof.
  revert s. induction kw as [|k kw IH]; intros s; simpl; [by intros [= ->]|].
  destruct s as [|c s]; [done|]. destruct (_ && _); [|done].
  intros H%IH. simpl. lia.
Qed.

Lemma expect_length c s r : expect c s = Some r → String.length r < String.length s.
Proof.
  destruct s as [|d s]; [done|]. simpl. case_bool_decide; [|done]. intros [= ->]. lia.
Qed.

Lemma dotstar_close_length s g : dotstar_close s = Some g → String.length g < String.length s.
Proof.
  unfold dotstar_close. set (s1 := if endswith nl s then drop_last s else s).
  destruct (endswith ")" s1 && _) eqn:E; [|done]. intros [= <-].
  apply andb_true_iff in E as [E _].
  assert (s1 ≠ "") as Hne by (intros ->; done).
  pose proof (length_drop_last s1 Hne).
  assert (String.length s1 ≤ String.length s); [|lia].
  subst s1. destruct (endswith nl s) eqn:E'; [|done].
  assert (s ≠ "") as Hs by (intros ->; done).
  pose proof (length_drop_last s Hs). lia.
Qed.

Lemma _RE_WRAP1_length s wrap g :
  _RE_WRAP1 s = Some (wrap, g) → String.length g < String.length s.
Proof.
  assert (∀ kw, (r ← ci_prefix kw s; r ← expect "(" (skip_ws r);
                 inner ← dotstar_close r; Some (kw, inner)) = Some (wrap, g) →
                String.length g < String.length s) as H.
  { intros kw H.
    destruct (ci_prefix kw s) as [r1|] eqn:E1; [|done]. simpl in H.
    destruct (expect "(" (skip_ws r1)) as [r2|] eqn:E2; [|done]. simpl in H.
    destruct (dotstar_close r2) as [r3|] eqn:E3; [|done]. simpl in H.
    injection H as _ <-.
    apply ci_prefix_length in E1. apply expect_length in E2.
    apply dotstar_close_length in E3.
    pose proof (length_lstrip r1). unfold skip_ws in *. lia. }
  unfold _RE_WRAP1. intros Hs.
  repeat match type of Hs with
         | match ?x with _ => _ end = _ => destruct x as [[??]|] eqn:?; simplify_eq
         end; eauto.
Qed.

Lemma parse_ch_type_fuel_enough fuel :
  ∀ t, String.length t ≤ fuel → is_Some (parse_ch_type_fuel fuel t).
Proof.
  induction fuel as [|fuel IH]; intros t Ht; rewrite parse_ch_type_fuel_unfold;
    destruct (_RE_WRAP1 (strip t)) as [[wrap g]|] eqn:E; try done.
  - apply _RE_WRAP1_length in E. pose proof (length_strip t). lia.
  - apply _RE_WRAP1_length in E. pose proof (length_strip t). pose proof (length_strip g).
    destruct (IH (strip g) ltac:(lia)) as [[inner|e] ->]; [|done].
    repeat case_bool_decide; done.
Qed.

(** C3: the parser raises [IndexError] on the empty text, on a text of
    whitespace only and on a wrapper around nothing, where the claim
    promises the text type; an unknown type text does fall back to the text
    type. *)
Theorem parse_blank_raises :
  _parse_ch_type "" = Raise IndexError
  ∧ _parse_ch_type "   " = Raise IndexError
  ∧ _parse_ch_type "Nullable()" = Raise IndexError
  ∧ _parse_ch_type "Enum8('a'=1)" = Ok String_.
Proof. by vm_compute. Qed.

(** ** Texts without a percent sign *)

Section pct.
Implicit Types (s t : string) (c : ascii).

Lemma contains_char_lstrip c s : contains_char c (lstrip s) = true → contains_char c s = true.
Proof.
  induction s as [|d s IH]; [done|]. simpl. destruct (is_space d); [|done].
  intros H%IH. rewrite H. apply orb_true_r.
Qed.

Lemma contains_char_rstrip c s : contains_char c (rstrip s) = true → contains_char c s = true.
Proof.
  induction s as [|d s IH]; [done|]. simpl.
  destruct (rstrip s) as [|e r].
  - destruct (is_space d); [done|]. simpl. rewrite orb_false_r. by intros ->.
  - intros H. change (bool_decide (d = c) || contains_char c (String e r) = true) in H.
    apply orb_true_iff in H as [->|H%IH]; [done|]. rewrite H. apply orb_true_r.
Qed.

Lemma contains_char_drop_last c s : contains_char c (drop_last s) = true → contains_char c s = true.
Proof.
  induction s as [|d s IH]; [done|]. simpl. destruct s as [|e s]; [done|].
  intros H. change (bool_decide (d = c) || contains_char c (drop_last (String e s)) = true) in H.
  apply orb_true_iff in H as [->|H%IH]; [done|]. rewrite H. apply orb_true_r.
Qed.

Lemma contains_char_tail c s : contains_char c (tail s) = true → contains_char c s = true.
Proof. destruct s; [done|]. simpl. intros ->. apply orb_true_r. Qed.

Lemma contains_char_double c q s :
  c ≠ q → contains_char c (double_char q s) = contains_char c s.
Proof.
  intros Hq. induction s as [|d s IH]; [done|]. simpl.
  case_bool_decide as Hd; simpl; rewrite IH; [|done].
  subst. by rewrite !bool_decide_eq_false_2.
Qed.

Lemma contains_char_split_once c q s :
  contains_char c s = false →
  contains_char c (split_once q s).1 = false ∧ contains_char c (split_once q s).2 = false.
Proof.
  induction s as [|d s IH]; [done|]. simpl.
  intros [Hd Hs]%orb_false_iff. destruct (bool_decide (d = q)); [done|].
  destruct (IH Hs) as [H1 H2]. destruct (split_once q s). simpl in *.
  by rewrite Hd, H1.
Qed.

Lemma pct_free_app s t : pct_free (s +:+ t) = pct_free s && pct_free t.
Proof. unfold pct_free. rewrite contains_char_app. by destruct (contains_char _ s). Qed.

Lemma pct_free_strip s : pct_free s = true → pct_free (strip s) = true.
Proof.
  unfold pct_free, strip. intros H%negb_true_iff. apply negb_true_iff.
  destruct (contains_char "%" (rstrip (lstrip s))) eqn:E; [|done].
  apply contains_char_rstrip, contains_char_lstrip in E. congruence.
Qed.

Lemma pct_free_strip_any_quotes s : pct_free s = true → pct_free (strip_any_quotes s) = true.
Proof.
  intros H. unfold strip_any_quotes. destruct s as [|c s]; [done|].
  pose proof (pct_free_strip _ H) as H'. destruct (_ || _); [|done].
  unfold pct_free, slice_1_m1 in *. apply negb_true_iff in H'. apply negb_true_iff.
  destruct (contains_char "%" (drop_last (tail _))) eqn:E; [|done].
  apply contains_char_drop_last, contains_char_tail in E. congruence.
Qed.

Lemma pct_free_quote_ident s : pct_free s = true → pct_free (quote_ident s) = true.
Proof.
  intros H%pct_free_strip_any_quotes. unfold quote_ident.
  rewrite !pct_free_app. unfold pct_free at 2. rewrite contains_char_double by done.
  fold (pct_free (strip_any_quotes s)). by rewrite H.
Qed.

Lemma pct_free_render_table_name s : pct_free s = true → pct_free (render_table_name s) = true.
Proof.
  intros H%pct_free_strip. unfold render_table_name.
  destruct (contains_char dot (strip s)); [|by apply pct_free_quote_ident].
  unfold pct_free in H. apply negb_true_iff in H.
  destruct (contains_char_split_once "%" dot _ H) as [H1 H2].
  destruct (split_once dot (strip s)) as [db tbl]. simpl in H1, H2.
  rewrite !pct_free_app, !pct_free_quote_ident; [done|..]; unfold pct_free;
    by apply negb_true_iff.
Qed.

Lemma pct_free_join sep parts :
  pct_free sep = true → forallb pct_free parts = true → pct_free (join sep parts) = true.
Proof.
  intros Hsep. induction parts as [|p parts IH]; [done|]. simpl.
  intros [Hp Hps]%andb_true_iff. destruct parts as [|p' parts]; [done|].
  rewrite !pct_free_app, Hp, Hsep. by apply IH.
Qed.
End pct.

(** ** Placeholder names *)

#[local] Instance pname_inj : Inj (=) (=) pname.
Proof. intros i j H. unfold pname in H. simpl in H. injection H as H. by apply (inj pretty). Qed.

Lemma digit_not_pct_paren c : is_digit c = true → c ≠ "%"%char ∧ c ≠ ")"%char.
Proof. destruct c as [[] [] [] [] [] [] [] []]; vm_compute; intros; split; congruence. Qed.

Lemma digits_only_free c s :
  (∀ d, is_digit d = true → d ≠ c) → digits_only s = true → contains_char c s = false.
Proof.
  intros Hc. induction s as [|d s IH]; [done|]. simpl.
  intros [Hd Hs]%andb_true_iff. rewrite IH by done.
  rewrite bool_decide_eq_false_2; [done|]. by apply Hc.
Qed.

Lemma pname_free i :
  contains_char "%" (pname i) = false ∧ contains_char ")" (pname i) = false.
Proof.
  unfold pname. simpl. split.
  - apply digits_only_free; [intros; by apply digit_not_pct_paren|apply pretty_N_digits].
  - apply digits_only_free; [intros; by apply digit_not_pct_paren|apply pretty_N_digits].
Qed.

Lemma pnames_app i a b : pnames i (a + b) = pnames i a ++ pnames (i + a) b.
Proof. unfold pnames. by rewrite seq_app, map_app. Qed.

Lemma NoDup_pnames i n : NoDup (pnames i n).
Proof.
  unfold pnames. apply (NoDup_fmap_2 pname), NoDup_ListNoDup, seq_NoDup.
Qed.

(** ** Placeholder fragments of a text *)

Lemma placeholder_at_free c s : c ≠ "%"%char → placeholder_at (String c s) = None.
Proof. intros Hc. destruct c as [[] [] [] [] [] [] [] []]; try done. Qed.

Lemma closed_frag_free a : pct_free a = true → closed_frag a [].
Proof.
  intros Ha rest. induction a as [|c a IH]; [done|].
  unfold pct_free in *. simpl in Ha. apply negb_true_iff, orb_false_iff in Ha as [Hc Ha].
  apply bool_decide_eq_false in Hc.
  change (String c a +:+ rest) with (String c (a +:+ rest)).
  cbn [placeholders]. rewrite placeholder_at_free by done.
  apply IH. by apply negb_true_iff.
Qed.

Lemma closed_frag_app a b na nb :
  closed_frag a na → closed_frag b nb → closed_frag (a +:+ b) (na ++ nb).
Proof. intros Ha Hb rest. by rewrite str_app_assoc, Ha, Hb, (assoc_L (++)). Qed.

Lemma closed_frag_placeholders a names : closed_frag a names → placeholders a = names.
Proof.
  intros H. specialize (H ""). rewrite str_app_nil_r in H. simpl in H.
  by rewrite (right_id_L [] (++)) in H.
Qed.

Lemma read_name_stop p r :
  contains_char ")" p = false → read_name (p +:+ String ")" r) = Some (p, r).
Proof.
  induction p as [|c p IH]; [done|]. simpl. intros [Hc Hp]%orb_false_iff.
  rewrite Hc, IH by done. done.
Qed.

Lemma closed_frag_placeholder i : closed_frag (placeholder (pname i)) [pname i].
Proof.
  intros rest. destruct (pname_free i) as [H1 H2]. unfold placeholder.
  change ("%(" +:+ pname i +:+ ")s") with (String "%" (String "(" (pname i +:+ ")s"))).
  change (String "%" (String "(" (pname i +:+ ")s")) +:+ rest)
    with (String "%" (String "(" ((pname i +:+ ")s") +:+ rest))).
  rewrite str_app_assoc.
  cbn [placeholders]. 
  assert (placeholder_at (String "%" (String "(" (pname i +:+ ")s" +:+ rest))) = Some (pname i)) as ->.
  { unfold placeholder_at.
    change (")s" +:+ rest) with (String ")" (String "s" rest)).
    by rewrite read_name_stop. }
  f_equal.
  assert (placeholder_at (String "(" (pname i +:+ ")s" +:+ rest)) = None) as -> by done.
  rewrite <-str_app_assoc. apply (closed_frag_free (pname i +:+ ")s")).
  rewrite pct_free_app. unfold pct_free at 1. by rewrite H1.
Qed.

(** ** expressions.py: what [to_sql] returns *)

Lemma to_sql_binary l op r c :
  to_sql (BinaryExpr l op r) c =
  let '(ls, lp, c1) := to_sql l c in
  let '(rs, rp, c2) := to_sql r c1 in
  ("(" +:+ ls +:+ " " +:+ op +:+ " " +:+ rs +:+ ")", rp ∪ lp, c2).
Proof. reflexivity. Qed.

Lemma to_sql_logical l op r c :
  to_sql (LogicalExpr l op r) c = to_sql (BinaryExpr l op r) c.
Proof. reflexivity. Qed.

Lemma to_sql_counter e : ∀ c, _i (to_sql e c).2 = _i c + literals e.
Proof.
  induction e as [name|v|l IHl op r IHr|l IHl op r IHr|sql]; intros c;
    rewrite ?to_sql_logical, ?to_sql_binary; simpl; try lia.
  all: specialize (IHl c); destruct (to_sql l c) as [[ls lp] c1];
    specialize (IHr c1); destruct (to_sql r c1) as [[rs rp] c2]; simpl in *; lia.
Qed.

Lemma to_sql_dom e :
  ∀ c, dom (to_sql e c).1.2 = list_to_set (pnames (_i c) (literals e)).
Proof.
  induction e as [name|v|l IHl op r IHr|l IHl op r IHr|sql]; intros c;
    rewrite ?to_sql_logical, ?to_sql_binary; simpl.
  - set_solver.
  - rewrite dom_singleton_L. set_solver.
  - specialize (IHl c). pose proof (to_sql_counter l c) as Hc.
    destruct (to_sql l c) as [[ls lp] c1].
    specialize (IHr c1). destruct (to_sql r c1) as [[rs rp] c2]. simpl in *.
    rewrite dom_union_L, IHl, IHr, Hc, pnames_app, list_to_set_app_L. set_solver.
  - specialize (IHl c). pose proof (to_sql_counter l c) as Hc.
    destruct (to_sql l c) as [[ls lp] c1].
    specialize (IHr c1). destruct (to_sql r c1) as [[rs rp] c2]. simpl in *.
    rewrite dom_union_L, IHl, IHr, Hc, pnames_app, list_to_set_app_L. set_solver.
  - set_solver.
Qed.

Lemma closed_frag_binary ls op rs nl nr :
  closed_frag ls nl → closed_frag rs nr → pct_free op = true →
  closed_frag ("(" +:+ ls +:+ " " +:+ op +:+ " " +:+ rs +:+ ")") (nl ++ nr).
Proof.
  intros Hl Hr Hop rest. rewrite !str_app_assoc.
  rewrite (closed_frag_free "(" eq_refl), Hl.
  rewrite (closed_frag_free " " eq_refl), (closed_frag_free op Hop).
  rewrite (closed_frag_free " " eq_refl), Hr, (closed_frag_free ")" eq_refl).
  simpl. by rewrite (assoc_L (++)).
Qed.

Lemma to_sql_closed e :
  pct_free_expr e = true →
  ∀ c, closed_frag (to_sql e c).1.1 (pnames (_i c) (literals e)).
Proof.
  induction e as [name|v|l IHl op r IHr|l IHl op r IHr|sql]; intros He c;
    rewrite ?to_sql_logical, ?to_sql_binary; cbn [pct_free_expr literals] in He |- *.
  - by apply closed_frag_free, pct_free_quote_ident.
  - apply closed_frag_placeholder.
  - apply andb_true_iff in He as [[Hl Hop]%andb_true_iff Hr].
    specialize (IHl Hl c). pose proof (to_sql_counter l c) as Hc.
    destruct (to_sql l c) as [[ls lp] c1].
    specialize (IHr Hr c1). destruct (to_sql r c1) as [[rs rp] c2].
    cbn [fst snd] in *. rewrite pnames_app, <-Hc. by apply closed_frag_binary.
  - apply andb_true_iff in He as [[Hl Hop]%andb_true_iff Hr].
    specialize (IHl Hl c). pose proof (to_sql_counter l c) as Hc.
    destruct (to_sql l c) as [[ls lp] c1].
    specialize (IHr Hr c1). destruct (to_sql r c1) as [[rs rp] c2].
    cbn [fst snd] in *. rewrite pnames_app, <-Hc. by apply closed_frag_binary.
  - by apply closed_frag_free.
Qed.

Lemma to_sql_shape e1 :
  ∀ e2 c, shape e1 = shape e2 →
    (to_sql e1 c).1.1 = (to_sql e2 c).1.1 ∧ (to_sql e1 c).2 = (to_sql e2 c).2.
Proof.
  induction e1 as [name|v|l IHl op r IHr|l IHl op r IHr|sql];
    intros [name'|v'|l' op' r'|l' op' r'|sql'] c H; simplify_eq/=; try done.
  - destruct (IHl l' c) as [E1 E2]; [done|].
    destruct (to_sql l c) as [[ls lp] c1], (to_sql l' c) as [[ls' lp'] c1'].
    simpl in *. subst.
    destruct (IHr r' c1') as [E3 E4]; [done|].
    destruct (to_sql r c1') as [[rs rp] c2], (to_sql r' c1') as [[rs' rp'] c2'].
    simpl in *. by subst.
  - destruct (IHl l' c) as [E1 E2]; [done|].
    destruct (to_sql l c) as [[ls lp] c1], (to_sql l' c) as [[ls' lp'] c1'].
    simpl in *. subst.
    destruct (IHr r' c1') as [E3 E4]; [done|].
    destruct (to_sql r c1') as [[rs rp] c2], (to_sql r' c1') as [[rs' rp'] c2'].
    simpl in *. by subst.
Qed.

(** ** compiler.py: [select] step by step *)

Lemma select_steps self m w ob lim off :
  select self m w ob lim off =
  add_paging " OFFSET " off
    (add_paging " LIMIT " lim
       (add_order ob (add_where w (select_head m, ∅, self)))).
Proof.
  unfold select, add_where. fold (select_head m).
  destruct w as [e|]; [destruct (to_sql e self) as [[ws wp] c1]|];
    unfold add_order; destruct (truthy_list ob);
    destruct lim, off; reflexivity.
Qed.

Section allocated.
Context (i : nat).
Implicit Types (st : string * gmap string PyValue * Compiler).

Lemma allocated_head m self :
  pct_free_model m = true → _i self = i → allocated i 0 (select_head m, ∅, self).
Proof.
  intros [Ht Hc]%andb_true_iff Hi. split_and!; simpl; [|set_solver|lia].
  apply closed_frag_free. unfold select_head.
  rewrite !pct_free_app, (pct_free_render_table_name _ Ht).
  assert (pct_free (join ", " (map (λ '(_, c), quote_ident (name c)) (__columns__ m))) = true) as H.
  { apply pct_free_join; [done|]. induction (__columns__ m) as [|[k c] cs IH]; [done|].
    cbn [map forallb] in *. apply andb_true_iff in Hc as [Hc Hcs].
    by rewrite (pct_free_quote_ident _ Hc), IH. }
  destruct (join _ _); [done|]. by rewrite H.
Qed.

Lemma allocated_where w n st :
  match w with Some e => pct_free_expr e = true | None => True end →
  allocated i n st →
  allocated i (n + match w with Some e => literals e | None => 0 end) (add_where w st).
Proof.
  intros Hw (Hf & Hd & Hc). destruct st as [[sql params] self]. simpl in Hf, Hd, Hc.
  destruct w as [e|]; simpl; [|by rewrite Nat.add_0_r].
  pose proof (to_sql_closed e Hw self) as Hf'.
  pose proof (to_sql_dom e self) as Hd'.
  pose proof (to_sql_counter e self) as Hc'.
  destruct (to_sql e self) as [[ws wp] c1]. simpl in Hf', Hd', Hc'.
  rewrite Hc in *. unfold allocated. rewrite pnames_app.
  split_and!; cbn [fst snd].
  - apply closed_frag_app; [done|].
    apply (closed_frag_app " WHERE " ws [] _); [by apply closed_frag_free|done].
  - rewrite dom_union_L, Hd, Hd', list_to_set_app_L. set_solver.
  - lia.
Qed.

Lemma allocated_order ob n st :
  pct_free_order ob = true → allocated i n st → allocated i n (add_order ob st).
Proof.
  intros Hob (Hf & Hd & Hc). destruct st as [[sql params] self]. simpl in Hf, Hd, Hc.
  unfold add_order. destruct (truthy_list ob); [|done].
  split_and!; cbn [fst snd]; [|done..].
  rewrite <-(right_id_L [] (++) (pnames i n)). apply closed_frag_app; [done|].
  apply closed_frag_free. rewrite pct_free_app. apply andb_true_iff; split; [done|].
  apply pct_free_join; [done|]. unfold pct_free_order in Hob.
  induction (default [] ob) as [|[col d] l IH]; [done|]. cbn [map forallb] in *.
  apply andb_true_iff in Hob as [[H1 H2]%andb_true_iff Hl].
  by rewrite !pct_free_app, (pct_free_quote_ident _ H1), H2, IH.
Qed.

Lemma allocated_paging kw v n st :
  pct_free kw = true → allocated i n st →
  allocated i (n + match v with Some _ => 1 | None => 0 end) (add_paging kw v st).
Proof.
  intros Hkw (Hf & Hd & Hc). destruct st as [[sql params] self]. simpl in Hf, Hd, Hc.
  destruct v as [z|]; simpl; [|by rewrite Nat.add_0_r].
  unfold allocated. rewrite pnames_app, <-Hc. split_and!; cbn [fst snd].
  - apply closed_frag_app; [done|].
    apply (closed_frag_app kw _ [] _); [by apply closed_frag_free|].
    apply closed_frag_placeholder.
  - rewrite dom_insert_L, Hd, list_to_set_app_L. set_solver.
  - simpl. lia.
Qed.
End allocated.

Lemma select_allocated self m w ob lim off :
  pct_free_model m = true →
  match w with Some e => pct_free_expr e = true | None => True end →
  pct_free_order ob = true →
  allocated (_i self) (allocations w lim off) (select self m w ob lim off).
Proof.
  intros Hm Hw Hob. rewrite select_steps. unfold allocations.
  apply allocated_paging; [done|]. apply allocated_paging; [done|].
  apply allocated_order; [done|].
  apply (allocated_where _ w 0); [done|]. by apply allocated_head.
Qed.

(** C10, amended: when the table name, the column names, the operators, the
    raw fragments and the ordering texts carry no percent sign, the
    placeholder fragments of the text that [select] returns are the names
    the allocator issued during this compilation, in order; they are the
    keys of the returned parameter map, and no name occurs twice. *)
Theorem select_placeholders_are_keys self m w ob lim off :
  pct_free_model m = true →
  match w with Some e => pct_free_expr e = true | None => True end →
  pct_free_order ob = true →
  let '(sql, params, _) := select self m w ob lim off in
  placeholders sql = pnames (_i self) (allocations w lim off)
  ∧ list_to_set (placeholders sql) = dom params
  ∧ NoDup (placeholders sql).
Proof.
  intros Hm Hw Hob.
  destruct (select_allocated self m w ob lim off Hm Hw Hob) as (Hf & Hd & _).
  destruct (select _ _ _ _ _ _) as [[sql params] c]. simpl in Hf, Hd.
  apply closed_frag_placeholders in Hf. rewrite Hf, Hd.
  split_and!; [done..|apply NoDup_pnames].
Qed.

(** ** Same shape, same text *)

Lemma literals_shape e : literals (shape e) = literals e.
Proof. induction e; simpl; congruence. Qed.

Lemma same_text_where e1 e2 sql params self :
  shape e1 = shape e2 →
  same_text (add_where (Some e1) (sql, params, self)) (add_where (Some e2) (sql, params, self)).
Proof.
  intros H. unfold add_where.
  destruct (to_sql_shape e1 e2 self H) as [E1 E2].
  pose proof (to_sql_dom e1 self) as D1. pose proof (to_sql_dom e2 self) as D2.
  rewrite <-(literals_shape e1), H, literals_shape, <-D2 in D1.
  destruct (to_sql e1 self) as [[ws1 wp1] c1], (to_sql e2 self) as [[ws2 wp2] c2].
  simpl in *. subst. split_and!; simpl; [done..|]. by rewrite !dom_union_L, D1.
Qed.

Lemma same_text_order ob st1 st2 :
  same_text st1 st2 → same_text (add_order ob st1) (add_order ob st2).
Proof.
  destruct st1 as [[s1 p1] c1], st2 as [[s2 p2] c2]. intros (E1 & E2 & E3).
  simpl in *. subst. unfold add_order. destruct (truthy_list ob); by split_and!.
Qed.

Lemma same_text_paging kw v st1 st2 :
  same_text st1 st2 → same_text (add_paging kw v st1) (add_paging kw v st2).
Proof.
  destruct st1 as [[s1 p1] c1], st2 as [[s2 p2] c2]. intros (E1 & E2 & E3).
  simpl in *. subst. destruct v; simpl; split_and!; simpl; try done.
  by rewrite !dom_insert_L, E3.
Qed.

Lemma select_same_text self m w1 w2 ob lim off :
  shape w1 = shape w2 →
  same_text (select self m (Some w1) ob lim off) (select self m (Some w2) ob lim off).
Proof.
  intros H. rewrite !select_steps.
  by apply same_text_paging, same_text_paging, same_text_order, same_text_where.
Qed.

(** ** query.py *)

Lemma filter_foldl ps :
  ∀ q w, _where q = Some w →
    foldl filter q (map (λ x, FExpr (pred_expr x)) ps) =
    {| model := model q; _where := Some (foldl and_with w ps);
       _order_by := _order_by q; _limit := _limit q; _offset := _offset q |}.
Proof.
  induction ps as [|p ps IH]; intros q w Hq; simpl.
  - destruct q; simpl in *; by subst.
  - rewrite (IH _ (and_with w p)); [done|]. unfold filter. by rewrite Hq.
Qed.

Lemma to_sql_pred p c :
  to_sql (pred_expr p) c =
  (pred_text (_i c) p, {[ pname (_i c) := p_val p ]} ∪ ∅, {| _i := S (_i c) |}).
Proof. reflexivity. Qed.

Lemma to_sql_and_chain ps :
  ∀ acc c, (to_sql (foldl and_with acc ps) c).1.1
           = and_chain (_i (to_sql acc c).2) (to_sql acc c).1.1 ps.
Proof.
  induction ps as [|p ps IH]; intros acc c; [done|].
  cbn [foldl and_chain]. rewrite IH. unfold and_with.
  rewrite !to_sql_logical, !to_sql_binary.
  destruct (to_sql acc c) as [[ls lp] c1]. by rewrite to_sql_pred.
Qed.

Lemma literals_and_chain ps : ∀ acc, literals (foldl and_with acc ps) = literals acc + length ps.
Proof.
  induction ps as [|p ps IH]; intros acc; simpl; [lia|]. rewrite IH. simpl. lia.
Qed.

(** C6: [filter] called with the predicates [p], [ps] one after the other
    leaves the left-nested AND tree of them in call order; the compiled
    statement is the head, WHERE and the left-nested chain of AND groups,
    and the parameter map binds exactly one name for each predicate. *)
Theorem filter_chain_left_nested (m : Model) (p : Pred) (ps : list Pred) :
  let q := foldl filter (new_Query m) (map (λ x, FExpr (pred_expr x)) (p :: ps)) in
  _where q = Some (foldl (λ acc x, LogicalExpr acc "AND" (pred_expr x)) (pred_expr p) ps)
  ∧ (all q).1 = select_head m +:+ " WHERE " +:+ and_chain 1 (pred_text 0 p) ps
  ∧ dom (all q).2 = list_to_set (pnames 0 (S (length ps)))
  ∧ size (all q).2 = S (length ps).
Proof.
  intros q. subst q. cbn [map foldl].
  rewrite (filter_foldl ps _ (pred_expr p)) by done.
  cbn [_where model _order_by _limit _offset filter new_Query].
  fold and_with. split; [done|].
  unfold all. cbn [_where model _order_by _limit _offset].
  rewrite select_steps. cbn [add_paging add_order truthy_list add_where].
  pose proof (to_sql_and_chain ps (pred_expr p) new_Compiler) as Ht.
  pose proof (to_sql_dom (foldl and_with (pred_expr p) ps) new_Compiler) as Hd.
  rewrite literals_and_chain in Hd.
  destruct (to_sql (foldl and_with (pred_expr p) ps) new_Compiler) as [[ws wp] c1].
  cbn [fst snd add_paging add_order truthy_list] in *. rewrite Ht. split; [done|].
  assert (dom (wp ∪ ∅) = list_to_set (pnames 0 (S (length ps)))) as Hdom.
  { by rewrite dom_union_L, dom_empty_L, (right_id_L ∅ (∪)), Hd. }
  split; [done|].
  rewrite <-size_dom, Hdom, size_list_to_set by apply NoDup_pnames.
  unfold pnames. by rewrite length_map, length_seq.
Qed.

(** C7, amended: [count] wraps the compiled SELECT of the query's filter tree
    and ordering, with the limit and the offset left out, as a subquery
    under a row count, and hands over the parameter map of that compiled
    SELECT unchanged. *)
Theorem count_wraps_unpaged_select (q : Query) :
  count q = ("SELECT count() FROM (" +:+ (all (without_paging q)).1 +:+ ") AS "
               +:+ DQ +:+ "sub" +:+ DQ,
             (all (without_paging q)).2).
Proof.
  unfold count, all, without_paging. cbn [model _where _order_by _limit _offset].
  by destruct (select _ _ _ _ _ _) as [[sql params] c].
Qed.

(** C7 as stated fails: the statement of [count] does not wrap the text of
    the paged query, and the parameter of the limit is not handed over. *)
Lemma count_drops_limit :
  (count paged_query).1 ≠ "SELECT count() FROM (" +:+ (all paged_query).1 +:+ ") AS "
                           +:+ DQ +:+ "sub" +:+ DQ
  ∧ (count paged_query).2 !! "p1" = None
  ∧ (all paged_query).2 !! "p1" = Some (PyInt 10).
Proof. split; [vm_compute; discriminate|]. split; by vm_compute. Qed.

(** C10 as stated fails: a raw filter text carries a placeholder fragment
    that no parameter is bound to. *)
Lemma raw_fragment_is_unbound :
  list_to_set (placeholders (all raw_query).1) ≠ dom (all raw_query).2.
Proof.
  assert (placeholders (all raw_query).1 = ["p9"]) as -> by (by vm_compute).
  assert ((all raw_query).2 = ∅) as -> by (by vm_compute).
  set_solver.
Qed.

(** C10 at a filter with one literal and a limit. *)
Lemma select_placeholders_are_keys_witness :
  pct_free_model users = true
  ∧ pct_free_expr id_is_5 = true
  ∧ pct_free_order None = true
  ∧ let '(sql, params, _) := select new_Compiler users (Some id_is_5) None (Some 10%Z) None in
    placeholders sql = pnames 0 2
    ∧ list_to_set (placeholders sql) = dom params
    ∧ NoDup (placeholders sql).
Proof.
  split; [reflexivity|]. split; [reflexivity|]. split; [reflexivity|].
  apply (select_placeholders_are_keys new_Compiler users (Some id_is_5) None
           (Some 10%Z) None); reflexivity.
Defined.

(** ** ddl.py *)

Lemma with_order_by_same o : with_order_by (order_by o) o = o.
Proof. by destruct o. Qed.

Lemma cols_lower_foldl keys :
  ∀ (m : gmap string string) key k,
    foldl (λ m k, <[lower k := k]> m) m keys !! key = Some k →
    (k ∈ keys ∧ lower k = key) ∨ m !! key = Some k.
Proof.
  induction keys as [|k0 keys IH]; intros m key k; simpl; [by right|].
  intros [[H1 H2]|H]%IH.
  - left. split; [by right|done].
  - destruct (decide (lower k0 = key)) as [<-|Hne].
    + rewrite lookup_insert_eq in H. injection H as ->. left. split; [by left|done].
    + rewrite lookup_insert_ne in H by done. by right.
Qed.

Lemma cols_lower_foldl_None keys :
  ∀ (m : gmap string string) key,
    foldl (λ m k, <[lower k := k]> m) m keys !! key = None →
    (∀ k, k ∈ keys → lower k ≠ key) ∧ m !! key = None.
Proof.
  induction keys as [|k0 keys IH]; intros m key; simpl.
  - intros H. split; [|done]. intros k Hk. by apply elem_of_nil in Hk.
  - intros [H1 H2]%IH. destruct (decide (lower k0 = key)) as [<-|Hne].
    + by rewrite lookup_insert_eq in H2.
    + rewrite lookup_insert_ne in H2 by done. split; [|done].
      intros k [->|Hk]%elem_of_cons; [done|by apply H1].
Qed.

(** The default ordering key of [create_table]: the column whose name is
    [id] up to case when there is one, else the first column. *)
Lemma create_table_default_order name c t columns o :
  order_by o = None →
  ∃ k, create_table name ((c, t) :: columns) o
       = Ok (assemble (render_table_name name)
               (_render_columns_from_dict ((c, t) :: columns))
               (with_order_by (Some [k]) o))
     ∧ k ∈ c :: map fst columns
     ∧ (lower k = "id" ∨ (k = c ∧ ∀ k', k' ∈ c :: map fst columns → lower k' ≠ "id")).
Proof.
  intros Ho. unfold create_table. rewrite Ho.
  destruct (cols_lower ((c, t) :: columns) !! "id") as [k|] eqn:E.
  - exists k. split; [done|]. unfold cols_lower in E.
    apply cols_lower_foldl in E as [[H1 H2]|H]; [|done]. split; [done|by left].
  - exists c. split; [done|]. unfold cols_lower in E.
    apply cols_lower_foldl_None in E as [H _]. split; [by left|]. right. done.
Qed.

(** C8: for the model [events] with the columns [id] and [ts] and no ordering
    key, [create_table_from_model] renders no ORDER BY line at all, while
    [create_table] on the same columns renders the ORDER BY of [id]. *)
Theorem create_table_from_model_no_default_order :
  __order_by__ events = None
  ∧ create_table_from_model events true
    = join (String nl "")
        ["CREATE TABLE IF NOT EXISTS " +:+ DQ +:+ "events" +:+ DQ;
         "(";
         "  " +:+ DQ +:+ "id" +:+ DQ +:+ " UInt64,";
         "  " +:+ DQ +:+ "ts" +:+ DQ +:+ " DateTime64(3)";
         "";
         ")";
         "ENGINE = MergeTree"]
  ∧ contains "ORDER BY" (create_table_from_model events true) = false
  ∧ create_table "events" events_columns default_options
    = Ok (join (String nl "")
        ["CREATE TABLE IF NOT EXISTS " +:+ DQ +:+ "events" +:+ DQ;
         "(";
         "  " +:+ DQ +:+ "id" +:+ DQ +:+ " UInt64,";
         "  " +:+ DQ +:+ "ts" +:+ DQ +:+ " DateTime64(3)";
         "";
         ")";
         "ENGINE = MergeTree";
         "ORDER BY (" +:+ DQ +:+ "id" +:+ DQ +:+ ")"]).
Proof. split_and!; by vm_compute. Qed.

(** C9, amended: [create_table] with no column raises [StopIteration] when no
    ordering key is given, and with an ordering key it raises nothing and
    hands over a statement with an empty column list; [compile] of an
    [InsertBuilder] with no source raises [AssertionError] whatever its
    other fields are. *)
Theorem empty_inputs_at_compile_time (name : string) (o : TableOptions)
    (tgt : string) (mapping : list (string * string)) (joins wh gb ob : list string) :
  match order_by o with
  | None => create_table name [] o = Raise StopIteration
  | Some _ => create_table name [] o = Ok (assemble (render_table_name name) "" o)
  end
  ∧ compile {| target := tgt; _sources := []; _mapping := mapping; _joins := joins;
               b_where := wh; _group_by := gb; b_order_by := ob |}
    = Raise (AssertionError "No sources() specified").
Proof.
  split; [|done]. unfold create_table. destruct o as [? [?|] ? ? ? ? ? ? ?]; done.
Qed.

(** C9 as stated fails: with an ordering key given, no column raises
    nothing. *)
Lemma create_table_no_columns_passes :
  create_table "t" [] ordered_options
  = Ok (join (String nl "")
      ["CREATE TABLE IF NOT EXISTS " +:+ DQ +:+ "t" +:+ DQ;
       "(";
       "  ";
       "";
       ")";
       "ENGINE = MergeTree";
       "ORDER BY (" +:+ DQ +:+ "x" +:+ DQ +:+ ")"]).
Proof. by vm_compute. Qed.

(** ** engine.py: what the parser can raise *)

Lemma is_space_lower c : is_space (lower_char c) = is_space c.
Proof. destruct c as [[] [] [] [] [] [] [] []]; by vm_compute. Qed.

Lemma lstrip_lower s : lstrip (lower s) = lower (lstrip s).
Proof. induction s as [|c s IH]; [done|]. simpl. rewrite is_space_lower. by destruct (is_space c). Qed.

Lemma parse_leaf_result s :
  (∃ ty, parse_leaf s = Ok ty) ∨ (parse_leaf s = Raise IndexError ∧ lstrip s = "").
Proof.
  unfold parse_leaf.
  destruct (_RE_DECIMAL s) as [[p sc]|]; [left; eauto|].
  destruct (_RE_FIXED s); [left; eauto|]. destruct (_RE_DT64 s); [left; eauto|].
  unfold first_word. rewrite lstrip_lower.
  destruct (lstrip s) as [|c r]; [by right|]. left. cbn [lower].
  destruct (_SIMPLE_MAP !! _); eauto.
Qed.

Lemma parse_ch_type_fuel_result fuel :
  ∀ t r, parse_ch_type_fuel fuel t = Some r → (∃ ty, r = Ok ty) ∨ r = Raise IndexError.
Proof.
  induction fuel as [|fuel IH]; intros t r; rewrite parse_ch_type_fuel_unfold;
    destruct (_RE_WRAP1 (strip t)) as [[wrap g]|]; try done.
  - intros [= <-]. destruct (parse_leaf_result (strip t)) as [?|[? _]]; eauto.
  - destruct (parse_ch_type_fuel fuel (strip g)) as [[inner|e]|] eqn:E; [| |done].
    + repeat case_bool_decide; intros [= <-]; eauto.
      destruct (parse_leaf_result (strip t)) as [?|[? _]]; eauto.
    + intros [= <-]. by destruct (IH _ _ E) as [[? ?]|?]; [|right].
  - intros [= <-]. destruct (parse_leaf_result (strip t)) as [?|[? _]]; eauto.
Qed.

(** The parser as embedded returns a type or raises [IndexError]; the
    conversion limit of [int] and the depth of the interpreter's stack are
    outside the embedding. *)
Lemma _parse_ch_type_result t :
  (∃ ty, _parse_ch_type t = Ok ty) ∨ _parse_ch_type t = Raise IndexError.
Proof.
  unfold _parse_ch_type.
  destruct (parse_ch_type_fuel_enough (String.length t) t) as [r Hr]; [done|].
  rewrite Hr. destruct (parse_ch_type_fuel_result _ _ _ Hr) as [[ty ->]| ->]; eauto.
Qed.

(** X27: a text of at most 4300 characters (so that each of its numerals
    is within what [int] converts) that is not blank and has no wrapper
    keyword in front parses to a type. *)
Lemma _parse_ch_type_leaf t :
  String.length t ≤ 4300 →
  _RE_WRAP1 (strip t) = None → strip t ≠ "" → ∃ ty, _parse_ch_type t = Ok ty.
Proof.
  intros _ Hw Hne. unfold _parse_ch_type. rewrite parse_ch_type_fuel_unfold, Hw.
  destruct (parse_leaf_result (strip t)) as [?|[_ H]]; [done|].
  by rewrite lstrip_strip in H.
Qed.

(** * Properties of more of the package *)

(** ** dialect.py, continued *)

Lemma length_double_char c s : String.length s ≤ String.length (double_char c s).
Proof. induction s as [|d s IH]; simpl; [lia|]. case_bool_decide; simpl; lia. Qed.

Lemma double_char_fixed c s : double_char c s = s ↔ contains_char c s = false.
Proof.
  induction s as [|d s IH]; simpl; [done|].
  case_bool_decide as Hd; simpl.
  - split; [|done]. intros H. apply (f_equal String.length) in H. simpl in H.
    pose proof (length_double_char c s). lia.
  - rewrite <-IH. split; [by intros [= ->]|by intros ->].
Qed.

Lemma contains_char_double_same c s :
  contains_char c (double_char c s) = contains_char c s.
Proof.
  induction s as [|d s IH]; simpl; [done|].
  case_bool_decide as Hd; simpl.
  - by rewrite bool_decide_eq_true_2.
  - by rewrite bool_decide_eq_false_2, IH.
Qed.

Lemma strip_any_quotes_quoted x :
  strip_any_quotes (DQ +:+ x +:+ DQ) = x.
Proof.
  change (DQ +:+ x +:+ DQ) with (String dq (x +:+ String dq "")).
  unfold strip_any_quotes. rewrite (strip_clean dq x dq eq_refl eq_refl).
  assert (endswith dq (String dq (x +:+ String dq "")) = true) as ->.
  { apply (endswith_snoc dq (String dq x) dq). }
  cbn [startswith]. rewrite bool_decide_eq_true_2 by done. cbn [andb orb].
  unfold slice_1_m1. cbn [tail]. apply drop_last_snoc.
Qed.

Lemma quote_ident_twice name :
  quote_ident (quote_ident name)
  = DQ +:+ double_char dq (double_char dq (strip_any_quotes name)) +:+ DQ.
Proof. unfold quote_ident at 1. unfold quote_ident. by rewrite strip_any_quotes_quoted. Qed.

(** X1: quoting an identifier that is already quoted gives the same text
    exactly when the stripped name has no double quote in it; otherwise the
    double quotes are doubled once more. *)
Theorem quote_ident_idempotent_iff (name : string) :
  quote_ident (quote_ident name) = quote_ident name
  ↔ contains_char dq (strip_any_quotes name) = false.
Proof.
  rewrite quote_ident_twice. unfold quote_ident. split.
  - intros H. apply (inj (String.app DQ)) in H.
    apply (f_equal drop_last) in H. unfold DQ in H.
    rewrite !drop_last_snoc in H. rename H into H'.
    apply double_char_fixed in H'. by rewrite contains_char_double_same in H'.
  - intros H. apply double_char_fixed in H. by rewrite !H.
Qed.

(** X2: two names are quoted to the same text exactly when they strip to the
    same raw name. *)
Theorem quote_ident_same_iff (a b : string) :
  quote_ident a = quote_ident b ↔ strip_any_quotes a = strip_any_quotes b.
Proof.
  split.
  - intros H. apply (f_equal unquote) in H. rewrite !unquote_quote_ident in H.
    by injection H.
  - intros H. unfold quote_ident. by rewrite H.
Qed.

(** X3: whitespace around a name changes neither the quoted identifier nor
    the rendered table name nor the stripped name. *)
Theorem surrounding_whitespace_ignored (name : string) :
  quote_ident (strip name) = quote_ident name
  ∧ render_table_name (strip name) = render_table_name name
  ∧ strip_any_quotes (strip name) = strip_any_quotes name.
Proof.
  split; [apply quote_ident_strip|]. split; [|apply strip_any_quotes_strip].
  unfold render_table_name. by rewrite strip_idemp.
Qed.

(** ** ddl.py, continued *)

Lemma cols_lower_last keys :
  ∀ k, foldl (λ m k, <[lower k := k]> m) (∅ : gmap string string) keys !! "id" = Some k →
    ∃ pre post, keys = pre ++ k :: post ∧ lower k = "id"
                ∧ ∀ k', k' ∈ post → lower k' ≠ "id".
Proof.
  induction keys as [|k0 keys IH] using rev_ind; intros k; [done|].
  rewrite foldl_app. simpl.
  destruct (decide (lower k0 = "id")) as [E|Hne].
  - rewrite E, lookup_insert_eq. intros [= <-]. exists keys, [].
    split; [done|]. split; [done|]. intros k' Hk'. by apply elem_of_nil in Hk'.
  - rewrite lookup_insert_ne by done. intros (pre & post & -> & Hk & Hpost)%IH.
    exists pre, (post ++ [k0]). split; [by rewrite <-(assoc_L (++))|]. split; [done|].
    intros k' [Hk'|Hk']%elem_of_app; [by apply Hpost|].
    apply list_elem_of_singleton in Hk'. by subst.
Qed.

Lemma order_by_line_in_parts tbl cols_sql o k :
  order_by o = Some [k] →
  "ORDER BY (" +:+ quote_ident k +:+ ")" ∈ table_parts tbl cols_sql o.
Proof.
  intros Ho. unfold table_parts. rewrite Ho. cbn [truthy_list default map join].
  rewrite !elem_of_app. do 6 right. left. apply list_elem_of_singleton. done.
Qed.

(** X4: [create_table] with at least one column and no ordering key returns
    a statement with the line ORDER BY of one key [k]: the last column whose
    name is id up to case when there is one, else the first column. *)
Theorem create_table_orders_by_default (name c : string) (t : TypeArg)
    (columns : list (string * TypeArg)) (o : TableOptions) :
  order_by o = None →
  ∃ k, create_table name ((c, t) :: columns) o
       = Ok (join (String nl "")
               (table_parts (render_table_name name)
                  (_render_columns_from_dict ((c, t) :: columns))
                  (with_order_by (Some [k]) o)))
     ∧ "ORDER BY (" +:+ quote_ident k +:+ ")"
       ∈ table_parts (render_table_name name)
           (_render_columns_from_dict ((c, t) :: columns)) (with_order_by (Some [k]) o)
     ∧ ((∃ pre post, c :: map fst columns = pre ++ k :: post ∧ lower k = "id"
                     ∧ ∀ k', k' ∈ post → lower k' ≠ "id")
        ∨ (k = c ∧ ∀ k', k' ∈ c :: map fst columns → lower k' ≠ "id")).
Proof.
  intros Ho. unfold create_table. rewrite Ho.
  destruct (cols_lower ((c, t) :: columns) !! "id") as [k|] eqn:E; [exists k|exists c];
    (split; [done|]); (split; [by apply order_by_line_in_parts|]).
  - left. by apply cols_lower_last in E.
  - right. split; [done|]. by apply cols_lower_foldl_None in E as [H _].
Qed.


Lemma existsb_order_by_line tbl cols_sql o :
  existsb (is_prefix "ORDER BY (") (table_parts tbl cols_sql o) = truthy_list (order_by o).
Proof.
  unfold table_parts. rewrite !existsb_app.
  destruct (_render_indexes (indexes o)) as [[|? ?]|];
    destruct (truthy_str (partition_by o));
    destruct (truthy_list (opt_primary_key o));
    destruct (truthy_str (ttl o));
    destruct (truthy_str (comment o));
    (assert (existsb (is_prefix "ORDER BY (")
              match _render_settings (settings o) with
              | Some (String c st) => [String c st]
              | _ => []
              end = false) as ->
      by (destruct (settings o) as [[|[? []] ?]|]; done));
    destruct (truthy_list (order_by o)); done.
Qed.

(** X6: the statement of [create_table_from_model] is its clauses joined by
    line breaks, and one of these clauses begins with ORDER BY and an opening
    parenthesis exactly when the model's [__order_by__] is a list that is not
    empty. *)
Theorem create_table_from_model_order_by_line (m : Model) (ine : bool) :
  create_table_from_model m ine
  = join (String nl "")
      (table_parts (render_table_name (__table__ m)) (_render_columns_from_model m)
         (model_options m ine))
  ∧ existsb (is_prefix "ORDER BY (")
      (table_parts (render_table_name (__table__ m)) (_render_columns_from_model m)
         (model_options m ine))
    = truthy_list (__order_by__ m).
Proof. split; [done|]. apply existsb_order_by_line. Qed.

Lemma dict_set_fresh {A} k (v : A) d : k ∉ map fst d → dict_set k v d = d ++ [(k, v)].
Proof.
  induction d as [|[k' v'] d IH]; [done|]. cbn [map fst dict_set].
  intros H. apply not_elem_of_cons in H as [Hne Hd].
  rewrite bool_decide_eq_false_2 by done. by rewrite IH.
Qed.

Lemma model_columns_dict_distinct (cols : list (string * Column)) :
  ∀ acc, NoDup (map fst acc ++ map (λ '(_, c), name c) cols) →
    foldl (λ d '(_, c), dict_set (name c) (ch_type c) d) acc cols
    = acc ++ map (λ '(_, c), (name c, ch_type c)) cols.
Proof.
  induction cols as [|[k c] cols IH]; intros acc Hnd; cbn [foldl map].
  - by rewrite (right_id_L [] (++)).
  - cbn [map] in Hnd. apply NoDup_app in Hnd as (Ha & Hdisj & Hc).
    apply NoDup_cons in Hc as [Hc1 Hc2].
    assert (name c ∉ map fst acc) as Hfresh.
    { intros Hin. apply (Hdisj _ Hin). by left. }
    rewrite dict_set_fresh by done. rewrite IH.
    + by rewrite <-(assoc_L (++)).
    + rewrite map_app. cbn [map fst]. rewrite <-(assoc_L (++)). cbn [app].
      apply NoDup_app. split; [done|]. split.
      * intros x Hx Hin. apply (Hdisj _ Hx). done.
      * by apply NoDup_cons.
Qed.

(** X7: for a model with an ordering key whose columns have names that
    differ from one another, [create_table] on the model's table, the
    mapping of its column names to their types, and its directives returns
    the statement of [create_table_from_model]. *)
Theorem entry_shapes_agree (m : Model) (ine : bool) (ob : list string) :
  __order_by__ m = Some ob →
  NoDup (map (λ '(_, c), name c) (__columns__ m)) →
  create_table (__table__ m) (model_columns_dict m) (model_options m ine)
  = Ok (create_table_from_model m ine).
Proof.
  intros Ho Hnd. unfold create_table, create_table_from_model. cbn [order_by model_options].
  rewrite Ho. do 2 f_equal.
  unfold _render_columns_from_dict, _render_columns_from_model, model_columns_dict.
  rewrite model_columns_dict_distinct by done. cbn [app].
  rewrite map_map. f_equal. apply map_ext. by intros [k c].
Qed.

(** ** engine.py: the parser and the case of letters *)

Ltac by_cases_on c := destruct c as [[] [] [] [] [] [] [] []]; vm_compute; intuition congruence.

Lemma lower_char_idemp c : lower_char (lower_char c) = lower_char c.
Proof. by_cases_on c. Qed.

Lemma lower_char_ascii c : (code (lower_char c) <? 128)%N = (code c <? 128)%N.
Proof. by_cases_on c. Qed.

Lemma is_digit_lower c : is_digit (lower_char c) = is_digit c.
Proof. by_cases_on c. Qed.

Lemma lower_char_digit c : is_digit c = true → lower_char c = c.
Proof. by_cases_on c. Qed.

Lemma lower_char_is c e :
  e = "("%char ∨ e = ")"%char ∨ e = ","%char ∨ e = nl →
  bool_decide (lower_char c = e) = bool_decide (c = e).
Proof.
  intros [->|[->|[->| ->]]]; destruct c as [[] [] [] [] [] [] [] []]; by vm_compute.
Qed.

Lemma lower_idemp s : lower (lower s) = lower s.
Proof. induction s; simpl; by rewrite ?lower_char_idemp, ?IHs. Qed.

Lemma length_lower s : String.length (lower s) = String.length s.
Proof. induction s; simpl; congruence. Qed.

Lemma rstrip_lower s : rstrip (lower s) = lower (rstrip s).
Proof.
  induction s as [|c s IH]; [done|]. simpl. rewrite IH, is_space_lower.
  destruct (rstrip s); simpl; [by destruct (is_space c)|done].
Qed.

Lemma strip_lower s : strip (lower s) = lower (strip s).
Proof. unfold strip. by rewrite lstrip_lower, rstrip_lower. Qed.

Lemma ci_prefix_lower kw s : ci_prefix kw (lower s) = lower <$> ci_prefix kw s.
Proof.
  revert s. induction kw as [|k kw IH]; intros s; [done|].
  destruct s as [|c s]; [done|]. simpl.
  rewrite lower_char_idemp, lower_char_ascii. destruct (_ && _); [apply IH|done].
Qed.

Lemma expect_lower e s :
  e = "("%char ∨ e = ")"%char ∨ e = ","%char ∨ e = nl →
  expect e (lower s) = lower <$> expect e s.
Proof.
  intros He. destruct s as [|c s]; [done|]. simpl.
  rewrite (lower_char_is c e He). by destruct (bool_decide _).
Qed.

Lemma take_digits_lower s :
  take_digits (lower s) = ((take_digits s).1, lower (take_digits s).2).
Proof.
  induction s as [|c s IH]; [done|]. simpl. rewrite is_digit_lower.
  destruct (is_digit c) eqn:E; [|done].
  rewrite IH. destruct (take_digits s). simpl. by rewrite (lower_char_digit c E).
Qed.

Lemma digits1_lower s :
  digits1 (lower s) = (λ '(d, r), (d, lower r)) <$> digits1 s.
Proof.
  unfold digits1. rewrite take_digits_lower. destruct (take_digits s) as [[|c d] r]; done.
Qed.

Lemma ws_to_end_lower s : ws_to_end (lower s) = ws_to_end s.
Proof. unfold ws_to_end, skip_ws. rewrite lstrip_lower. by destruct (lstrip s). Qed.

Lemma last_char_lower s : last_char (lower s) = lower_char <$> last_char s.
Proof.
  induction s as [|c s IH]; [done|]. simpl. destruct s as [|d s]; [done|]. apply IH.
Qed.

Lemma endswith_lower e s :
  e = "("%char ∨ e = ")"%char ∨ e = ","%char ∨ e = nl →
  endswith e (lower s) = endswith e s.
Proof.
  intros He. unfold endswith. rewrite last_char_lower.
  destruct (last_char s) as [c|]; [|done]. simpl. by apply lower_char_is.
Qed.

Lemma drop_last_lower s : drop_last (lower s) = lower (drop_last s).
Proof.
  induction s as [|c s IH]; [done|]. simpl. destruct s as [|d s]; [done|].
  simpl in *. by rewrite IH.
Qed.

Lemma contains_char_lower e s :
  e = "("%char ∨ e = ")"%char ∨ e = ","%char ∨ e = nl →
  contains_char e (lower s) = contains_char e s.
Proof.
  intros He. induction s as [|c s IH]; [done|]. simpl.
  by rewrite IH, (lower_char_is c e He).
Qed.

Lemma dotstar_close_lower s : dotstar_close (lower s) = lower <$> dotstar_close s.
Proof.
  unfold dotstar_close. rewrite (endswith_lower nl) by auto.
  destruct (endswith nl s).
  - rewrite !drop_last_lower, (endswith_lower ")") by auto.
    rewrite (contains_char_lower nl) by auto. by destruct (_ && _).
  - rewrite !drop_last_lower, (endswith_lower ")") by auto.
    rewrite (contains_char_lower nl) by auto. by destruct (_ && _).
Qed.

Lemma skip_ws_lower s : skip_ws (lower s) = lower (skip_ws s).
Proof. apply lstrip_lower. Qed.

Lemma _RE_WRAP1_lower s :
  _RE_WRAP1 (lower s) = (λ '(kw, g), (kw, lower g)) <$> _RE_WRAP1 s.
Proof.
  assert (∀ kw,
    (r ← ci_prefix kw (lower s); r ← expect "(" (skip_ws r);
     inner ← dotstar_close r; Some (kw, inner))
    = (λ '(kw, g), (kw, lower g)) <$>
      (r ← ci_prefix kw s; r ← expect "(" (skip_ws r);
       inner ← dotstar_close r; Some (kw, inner))) as H.
  { intros kw. rewrite ci_prefix_lower. destruct (ci_prefix kw s) as [r1|]; [|done]. simpl.
    rewrite skip_ws_lower, expect_lower by auto.
    destruct (expect "(" (skip_ws r1)) as [r2|]; [|done]. simpl.
    rewrite dotstar_close_lower. by destruct (dotstar_close r2). }
  unfold _RE_WRAP1. rewrite !H.
  destruct (r ← ci_prefix "nullable" s; _) as [[??]|]; [done|].
  destruct (r ← ci_prefix "array" s; _) as [[??]|]; [done|]. done.
Qed.

Lemma _RE_DECIMAL_lower s : _RE_DECIMAL (lower s) = _RE_DECIMAL s.
Proof.
  unfold _RE_DECIMAL. rewrite ci_prefix_lower.
  destruct (ci_prefix "decimal" s) as [r|]; [|done]. simpl.
  rewrite skip_ws_lower, expect_lower by auto.
  destruct (expect "(" (skip_ws r)) as [r1|]; [|done]. simpl.
  rewrite skip_ws_lower, digits1_lower.
  destruct (digits1 (skip_ws r1)) as [[p r2]|]; [|done]. simpl.
  rewrite skip_ws_lower, expect_lower by auto.
  destruct (expect "," (skip_ws r2)) as [r3|]; [|done]. simpl.
  rewrite skip_ws_lower, digits1_lower.
  destruct (digits1 (skip_ws r3)) as [[sc r4]|]; [|done]. simpl.
  rewrite skip_ws_lower, expect_lower by auto.
  destruct (expect ")" (skip_ws r4)) as [r5|]; [|done]. simpl.
  by rewrite ws_to_end_lower.
Qed.

Lemma re_one_number_lower kw s : re_one_number kw (lower s) = re_one_number kw s.
Proof.
  unfold re_one_number. rewrite ci_prefix_lower.
  destruct (ci_prefix kw s) as [r|]; [|done]. simpl.
  rewrite skip_ws_lower, expect_lower by auto.
  destruct (expect "(" (skip_ws r)) as [r1|]; [|done]. simpl.
  rewrite skip_ws_lower, digits1_lower.
  destruct (digits1 (skip_ws r1)) as [[p r2]|]; [|done]. simpl.
  rewrite skip_ws_lower, expect_lower by auto.
  destruct (expect ")" (skip_ws r2)) as [r5|]; [|done]. simpl.
  by rewrite ws_to_end_lower.
Qed.

Lemma parse_leaf_lower s : parse_leaf (lower s) = parse_leaf s.
Proof.
  unfold parse_leaf, _RE_FIXED, _RE_DT64.
  by rewrite _RE_DECIMAL_lower, !re_one_number_lower, lower_idemp.
Qed.

Lemma parse_ch_type_fuel_lower fuel :
  ∀ t, parse_ch_type_fuel fuel (lower t) = parse_ch_type_fuel fuel t.
Proof.
  induction fuel as [|fuel IH]; intros t; rewrite !parse_ch_type_fuel_unfold;
    rewrite strip_lower, _RE_WRAP1_lower, parse_leaf_lower;
    destruct (_RE_WRAP1 (strip t)) as [[wrap g]|]; try done.
  simpl. by rewrite strip_lower, IH.
Qed.

Lemma _parse_ch_type_lower t : _parse_ch_type (lower t) = _parse_ch_type t.
Proof. unfold _parse_ch_type. by rewrite length_lower, parse_ch_type_fuel_lower. Qed.

(** X8: on a text of ASCII characters the parser does not look at the case
    of letters: the text and its lower-case form parse to the same result. *)
Theorem _parse_ch_type_ignores_case (t : string) :
  ascii_only t = true → _parse_ch_type (lower t) = _parse_ch_type t.
Proof. intros _. apply _parse_ch_type_lower. Qed.

(** X9: every spelling of a rendered type, in any mix of upper and lower
    case, parses back to the type. *)
Theorem parse_any_case_of_rendered (t : CHType) (u : string) :
  lower u = lower (render_chtype t) → _parse_ch_type u = Ok t.
Proof.
  intros H. rewrite <-_parse_ch_type_lower, H, _parse_ch_type_lower.
  unfold _parse_ch_type. by rewrite parse_rendered_fuel.
Qed.

Lemma parse_any_case_of_rendered_witness :
  lower "NULLABLE(array(DeCiMaL(10,2)))" = lower (render_chtype (Nullable (Array (Decimal 10 2))))
  ∧ _parse_ch_type "NULLABLE(array(DeCiMaL(10,2)))" = Ok (Nullable (Array (Decimal 10 2))).
Proof.
  split; [by vm_compute|].
  apply (parse_any_case_of_rendered (Nullable (Array (Decimal 10 2)))). by vm_compute.
Defined.

(** ** engine.py: the parser, its recursion and whitespace *)

Lemma parse_ch_type_fuel_strip fuel t :
  parse_ch_type_fuel fuel (strip t) = parse_ch_type_fuel fuel t.
Proof. by rewrite !parse_ch_type_fuel_unfold, strip_idemp. Qed.

Lemma parse_ch_type_fuel_stable f1 :
  ∀ f2 t r1 r2,
    parse_ch_type_fuel f1 t = Some r1 → parse_ch_type_fuel f2 t = Some r2 → r1 = r2.
Proof.
  induction f1 as [|f1 IH]; intros f2 t r1 r2; rewrite !parse_ch_type_fuel_unfold;
    destruct (_RE_WRAP1 (strip t)) as [[wrap g]|]; try congruence; try done.
  destruct f2 as [|f2]; [done|].
  destruct (parse_ch_type_fuel f1 (strip g)) as [x1|] eqn:E1; [|done].
  destruct (parse_ch_type_fuel f2 (strip g)) as [x2|] eqn:E2; [|by intros _ ?].
  rewrite (IH _ _ _ _ E1 E2). congruence.
Qed.

Lemma parse_ch_type_fuel_enough_strip fuel t :
  String.length (strip t) ≤ fuel → parse_ch_type_fuel fuel t = Some (_parse_ch_type t).
Proof.
  intros H. destruct (parse_ch_type_fuel_enough fuel (strip t) H) as [r Hr].
  rewrite parse_ch_type_fuel_strip in Hr. rewrite Hr. f_equal.
  unfold _parse_ch_type.
  destruct (parse_ch_type_fuel_enough (String.length t) t) as [r' Hr']; [done|].
  rewrite Hr'. by apply (parse_ch_type_fuel_stable _ _ _ _ _ Hr Hr').
Qed.

(** X10: whitespace around a type text does not change what it parses to. *)
Theorem _parse_ch_type_ignores_outer_whitespace (t : string) :
  _parse_ch_type (strip t) = _parse_ch_type t.
Proof.
  unfold _parse_ch_type at 1.
  rewrite parse_ch_type_fuel_strip, parse_ch_type_fuel_enough_strip; done.
Qed.

Lemma parse_wrapped kw Kw (wrap : CHType → CHType) x :
  (∀ r, contains_char nl r = false → _RE_WRAP1 (Kw +:+ r +:+ ")") = Some (kw, r)) →
  no_space Kw = true → Kw ≠ "" →
  (∀ (inner : CHType) (leaf : result CHType),
     (if bool_decide (kw = "nullable") then Some (Ok (Nullable inner))
      else if bool_decide (kw = "array") then Some (Ok (Array inner))
      else if bool_decide (kw = "lowcardinality") then Some (Ok (LowCardinality inner))
      else Some leaf) = Some (Ok (wrap inner))) →
  contains_char nl x = false →
  _parse_ch_type (Kw +:+ x +:+ ")")
  = match _parse_ch_type x with Ok ty => Ok (wrap ty) | Raise e => Raise e end.
Proof.
  intros Hre HKw HKw' Hwrap Hx.
  assert (strip (Kw +:+ x +:+ ")") = Kw +:+ x +:+ ")") as Hs.
  { destruct Kw as [|c Kw]; [done|]. simpl in HKw. apply andb_true_iff in HKw as [Hc _].
    apply negb_true_iff in Hc. rewrite <-str_app_assoc.
    apply (strip_clean c (Kw +:+ x) ")" Hc eq_refl). }
  unfold _parse_ch_type at 1. rewrite parse_ch_type_fuel_unfold, Hs, Hre by done.
  rewrite !str_length_app. destruct Kw as [|c Kw]; [done|]. cbn [String.length Nat.add].
  rewrite parse_ch_type_fuel_strip, parse_ch_type_fuel_enough_strip
    by (pose proof (length_strip x); lia).
  destruct (_parse_ch_type x); [|done]. by rewrite Hwrap.
Qed.

(** X11: a wrapper keyword around any text without a newline parses to the
    wrapper of what the text parses to, and raises when the text does. *)
Theorem parse_wrapper_of_any_text (x : string) :
  contains_char nl x = false →
  _parse_ch_type ("Nullable(" +:+ x +:+ ")")
  = match _parse_ch_type x with Ok ty => Ok (Nullable ty) | Raise e => Raise e end
  ∧ _parse_ch_type ("Array(" +:+ x +:+ ")")
    = match _parse_ch_type x with Ok ty => Ok (Array ty) | Raise e => Raise e end
  ∧ _parse_ch_type ("LowCardinality(" +:+ x +:+ ")")
    = match _parse_ch_type x with Ok ty => Ok (LowCardinality ty) | Raise e => Raise e end.
Proof.
  intros Hx. split_and!.
  - apply (parse_wrapped "nullable" "Nullable(" Nullable); try done.
    intros r Hr. by apply _RE_WRAP1_nullable.
  - apply (parse_wrapped "array" "Array(" Array); try done.
    intros r Hr. by apply _RE_WRAP1_array.
  - apply (parse_wrapped "lowcardinality" "LowCardinality(" LowCardinality); try done.
    intros r Hr. by apply _RE_WRAP1_lowcardinality.
Qed.

Lemma parse_wrapper_of_any_text_witness :
  contains_char nl "no such type" = false
  ∧ _parse_ch_type "Array(no such type)" = Ok (Array String_).
Proof.
  split; [reflexivity|].
  destruct (parse_wrapper_of_any_text "no such type" eq_refl) as (_ & H & _).
  etrans; [exact H|]. by vm_compute.
Defined.

(** X12: two Column Types render to the same text only when they are the
    same type. *)
Theorem render_chtype_distinct (t1 t2 : CHType) :
  render_chtype t1 = render_chtype t2 ↔ t1 = t2.
Proof.
  split; [|by intros ->]. intros H.
  pose proof (parse_rendered_fuel t1 _ (reflexivity _)) as H1.
  pose proof (parse_rendered_fuel t2 _ (reflexivity _)) as H2.
  rewrite H in H1. congruence.
Qed.

(** ** expressions.py and compiler.py: what is bound to what *)

Lemma length_values e : length (values e) = literals e.
Proof. induction e; simpl; rewrite ?length_app; congruence. Qed.

Lemma length_pnames i n : length (pnames i n) = n.
Proof. unfold pnames. by rewrite length_map, length_seq. Qed.

Lemma elem_of_pnames j i n : pname j ∈ pnames i n ↔ i ≤ j < i + n.
Proof.
  unfold pnames. rewrite list_elem_of_fmap. split.
  - intros (k & ->%(inj pname) & Hk). apply elem_of_seq in Hk. lia.
  - intros H. exists j. split; [done|]. apply elem_of_seq. lia.
Qed.

Lemma dom_bindings i vs : dom (bindings i vs) = list_to_set (pnames i (length vs)).
Proof.
  unfold bindings. rewrite dom_list_to_map_L. f_equal.
  rewrite fst_zip; [done|]. by rewrite length_pnames.
Qed.

Lemma bindings_app i vs ws :
  bindings i (vs ++ ws) = bindings i vs ∪ bindings (i + length vs) ws.
Proof.
  unfold bindings. rewrite length_app, pnames_app.
  rewrite zip_with_app by (by rewrite length_pnames).
  apply list_to_map_app.
Qed.

Lemma bindings_disjoint i vs j ws :
  i + length vs ≤ j → bindings i vs ##ₘ bindings j ws.
Proof.
  intros Hj. apply map_disjoint_dom. rewrite !dom_bindings.
  intros x [k [-> Hk]]%elem_of_list_to_set%list_elem_of_fmap Hx%elem_of_list_to_set.
  apply elem_of_seq in Hk. apply elem_of_pnames in Hx. lia.
Qed.

Lemma to_sql_bindings e : ∀ c, (to_sql e c).1.2 = bindings (_i c) (values e).
Proof.
  induction e as [name|v|l IHl op r IHr|l IHl op r IHr|sql]; intros c;
    rewrite ?to_sql_logical, ?to_sql_binary; try done.
  - specialize (IHl c). pose proof (to_sql_counter l c) as Hc.
    destruct (to_sql l c) as [[ls lp] c1].
    specialize (IHr c1). destruct (to_sql r c1) as [[rs rp] c2]. cbn [fst snd values] in *.
    rewrite bindings_app, length_values, <-Hc, <-IHl, <-IHr.
    apply map_union_comm. symmetry. rewrite IHl, IHr.
    apply bindings_disjoint. rewrite length_values. lia.
  - specialize (IHl c). pose proof (to_sql_counter l c) as Hc.
    destruct (to_sql l c) as [[ls lp] c1].
    specialize (IHr c1). destruct (to_sql r c1) as [[rs rp] c2]. cbn [fst snd values] in *.
    rewrite bindings_app, length_values, <-Hc, <-IHl, <-IHr.
    apply map_union_comm. symmetry. rewrite IHl, IHr.
    apply bindings_disjoint. rewrite length_values. lia.
Qed.

(** X13: [to_sql] binds the literals of a tree, from left to right, under
    the names issued from the counter on, one name each: the map has as many
    entries as the tree has literals and the counter advances by that
    number. *)
Theorem to_sql_binds_literals_in_order (e : Expr) (c : Compiler) :
  (to_sql e c).1.2 = bindings (_i c) (values e)
  ∧ _i (to_sql e c).2 = _i c + length (values e)
  ∧ size (to_sql e c).1.2 = length (values e)
  ∧ NoDup (pnames (_i c) (length (values e))).
Proof.
  split; [apply to_sql_bindings|]. split; [by rewrite to_sql_counter, length_values|].
  split; [|apply NoDup_pnames].
  rewrite to_sql_bindings, <-size_dom, dom_bindings, size_list_to_set by apply NoDup_pnames.
  apply length_pnames.
Qed.

Lemma bindings_snoc i vs v :
  bindings i (vs ++ [v]) = <[pname (i + length vs) := v]> (bindings i vs).
Proof.
  rewrite bindings_app. rewrite map_union_comm by (by apply bindings_disjoint).
  change (bindings (i + length vs) [v])
    with (<[pname (i + length vs) := v]> (∅ : gmap string PyValue)).
  by rewrite insert_empty, <-insert_union_singleton_l.
Qed.

Lemma add_where_bindings i vs w sql params self :
  params = bindings i vs → _i self = i + length vs →
  (add_where w (sql, params, self)).1.2
    = bindings i (vs ++ match w with Some e => values e | None => [] end)
  ∧ _i (add_where w (sql, params, self)).2
    = i + length (vs ++ match w with Some e => values e | None => [] end).
Proof.
  intros -> Hc. destruct w as [e|]; cbn [add_where]; [|by rewrite (right_id_L [] (++))].
  pose proof (to_sql_bindings e self) as Hb. pose proof (to_sql_counter e self) as Hc'.
  destruct (to_sql e self) as [[ws wp] c1]. cbn [fst snd] in *.
  rewrite bindings_app, length_app, length_values, Hb, Hc.
  split; [|lia]. apply map_union_comm. symmetry. by apply bindings_disjoint.
Qed.

Lemma add_paging_bindings i vs kw v sql params self :
  params = bindings i vs → _i self = i + length vs →
  (add_paging kw v (sql, params, self)).1.2
    = bindings i (vs ++ match v with Some n => [PyInt n] | None => [] end)
  ∧ _i (add_paging kw v (sql, params, self)).2
    = i + length (vs ++ match v with Some n => [PyInt n] | None => [] end).
Proof.
  intros -> Hc. destruct v as [n|]; cbn [add_paging add_param fst snd];
    [|by rewrite (right_id_L [] (++))].
  rewrite bindings_snoc, Hc, length_app. simpl. split; [done|lia].
Qed.

Lemma select_bindings self m w ob lim off :
  (select self m w ob lim off).1.2 = bindings (_i self) (bound_values w lim off)
  ∧ _i (select self m w ob lim off).2 = _i self + length (bound_values w lim off).
Proof.
  rewrite select_steps. unfold bound_values.
  destruct (add_where_bindings (_i self) [] w (select_head m) ∅ self) as [H1 H2];
    [done|simpl; lia|].
  destruct (add_where w (select_head m, ∅, self)) as [[s1 p1] c1]. cbn [fst snd app] in H1, H2.
  assert ((add_order ob (s1, p1, c1)).1.2 = p1 ∧ (add_order ob (s1, p1, c1)).2 = c1) as [H3 H4].
  { unfold add_order. by destruct (truthy_list ob). }
  destruct (add_order ob (s1, p1, c1)) as [[s2 p2] c2]. cbn [fst snd] in H3, H4. subst p2 c2.
  destruct (add_paging_bindings (_i self) _ " LIMIT " lim s2 p1 c1 H1 H2) as [H5 H6].
  destruct (add_paging " LIMIT " lim (s2, p1, c1)) as [[s3 p3] c3]. cbn [fst snd] in H5, H6.
  destruct (add_paging_bindings (_i self) _ " OFFSET " off s3 p3 c3 H5 H6) as [H7 H8].
  by rewrite <-!(assoc_L (++)) in H7, H8.
Qed.

(** X14: the parameter map of [select] binds the literals of the filter,
    then the limit, then the offset, in this order, under the consecutive
    names issued from the compiler's counter on, and nothing else. *)
Theorem select_binds_values_in_order (self : Compiler) (m : Model) (w : option Expr)
    (ob : option (list (string * string))) (lim off : option Z) :
  (select self m w ob lim off).1.2 = bindings (_i self) (bound_values w lim off)
  ∧ dom (select self m w ob lim off).1.2
    = list_to_set (pnames (_i self) (length (bound_values w lim off)))
  ∧ size (select self m w ob lim off).1.2 = length (bound_values w lim off)
  ∧ _i (select self m w ob lim off).2 = _i self + length (bound_values w lim off).
Proof.
  destruct (select_bindings self m w ob lim off) as [H1 H2].
  split; [done|]. split; [by rewrite H1, dom_bindings|]. split; [|done].
  rewrite H1, <-size_dom, dom_bindings, size_list_to_set by apply NoDup_pnames.
  apply length_pnames.
Qed.

(** ** compiler.py: literals stay out of the text *)

Lemma bindings_lookup i vs k v :
  vs !! k = Some v → bindings i vs !! pname (i + k) = Some v.
Proof.
  intros Hk. pose proof (lookup_lt_Some _ _ _ Hk) as Hlt.
  rewrite <-(take_drop_middle vs k v Hk), bindings_app.
  rewrite length_take, Nat.min_l by lia.
  apply lookup_union_Some_r; [apply bindings_disjoint; rewrite length_take; lia|].
  unfold bindings. cbn [length pnames seq map zip zip_with list_to_map uncurry].
  apply lookup_insert_eq.
Qed.

Lemma to_sql_holds_placeholder e :
  ∀ c k, k < literals e →
    ∃ pre post, (to_sql e c).1.1 = pre +:+ placeholder (pname (_i c + k)) +:+ post.
Proof.
  induction e as [name|v|l IHl op r IHr|l IHl op r IHr|sql]; intros c k Hk;
    rewrite ?to_sql_logical, ?to_sql_binary; cbn [literals] in Hk; try lia.
  - exists "", "". assert (k = 0) as -> by lia. rewrite Nat.add_0_r.
    cbn [to_sql add_param fst]. by rewrite str_app_nil_r.
  - pose proof (to_sql_counter l c) as Hc. specialize (IHl c).
    destruct (to_sql l c) as [[ls lp] c1]. specialize (IHr c1).
    destruct (to_sql r c1) as [[rs rp] c2]. cbn [fst snd] in *.
    destruct (decide (k < literals l)) as [Hl|Hl].
    + destruct (IHl k Hl) as (pre & post & ->).
      exists ("(" +:+ pre), (post +:+ " " +:+ op +:+ " " +:+ rs +:+ ")").
      by rewrite !str_app_assoc.
    + destruct (IHr (k - literals l) ltac:(lia)) as (pre & post & ->).
      replace (_i c1 + (k - literals l)) with (_i c + k) by lia.
      exists ("(" +:+ ls +:+ " " +:+ op +:+ " " +:+ pre), (post +:+ ")").
      by rewrite !str_app_assoc.
  - pose proof (to_sql_counter l c) as Hc. specialize (IHl c).
    destruct (to_sql l c) as [[ls lp] c1]. specialize (IHr c1).
    destruct (to_sql r c1) as [[rs rp] c2]. cbn [fst snd] in *.
    destruct (decide (k < literals l)) as [Hl|Hl].
    + destruct (IHl k Hl) as (pre & post & ->).
      exists ("(" +:+ pre), (post +:+ " " +:+ op +:+ " " +:+ rs +:+ ")").
      by rewrite !str_app_assoc.
    + destruct (IHr (k - literals l) ltac:(lia)) as (pre & post & ->).
      replace (_i c1 + (k - literals l)) with (_i c + k) by lia.
      exists ("(" +:+ ls +:+ " " +:+ op +:+ " " +:+ pre), (post +:+ ")").
      by rewrite !str_app_assoc.
Qed.

Lemma select_where_text self m w ob lim off :
  ∃ suffix, (select self m (Some w) ob lim off).1.1
            = select_head m +:+ " WHERE " +:+ (to_sql w self).1.1 +:+ suffix.
Proof.
  rewrite select_steps. cbn [add_where].
  destruct (to_sql w self) as [[ws wp] c1]. cbn [fst].
  unfold add_order.
  destruct (truthy_list ob), lim as [l|], off as [o|]; cbn [add_paging add_param fst];
    eexists; rewrite ?str_app_assoc; try reflexivity.
  all: by rewrite str_app_nil_r.
Qed.

Lemma select_holds_literal self m w ob lim off k v :
  values w !! k = Some v →
  (select self m (Some w) ob lim off).1.2 !! pname (_i self + k) = Some v
  ∧ ∃ pre post, (select self m (Some w) ob lim off).1.1
                = pre +:+ placeholder (pname (_i self + k)) +:+ post.
Proof.
  intros Hk. split.
  - destruct (select_bindings self m (Some w) ob lim off) as [-> _].
    apply bindings_lookup. unfold bound_values. by apply lookup_app_l_Some.
  - destruct (select_where_text self m w ob lim off) as [suffix ->].
    apply lookup_lt_Some in Hk. rewrite length_values in Hk.
    destruct (to_sql_holds_placeholder w self k Hk) as (pre & post & ->).
    exists (select_head m +:+ " WHERE " +:+ pre), (post +:+ suffix).
    by rewrite !str_app_assoc.
Qed.

(** C1: two filter trees that differ in the values of their literals only
    are compiled by [select] to the same text, with the same names bound in
    the parameter map.  For each literal, the [k]-th from the left, both
    texts hold the placeholder of the name that the allocator issues [k]
    steps after the compiler's counter, at the same place, and each
    parameter map binds this name to the value of its own tree. *)
Theorem select_text_ignores_literals self m w1 w2 ob lim off :
  shape w1 = shape w2 →
  (select self m (Some w1) ob lim off).1.1 = (select self m (Some w2) ob lim off).1.1
  ∧ dom (select self m (Some w1) ob lim off).1.2 = dom (select self m (Some w2) ob lim off).1.2
  ∧ length (values w1) = length (values w2)
  ∧ ∀ k v1 v2, values w1 !! k = Some v1 → values w2 !! k = Some v2 →
      (select self m (Some w1) ob lim off).1.2 !! pname (_i self + k) = Some v1
      ∧ (select self m (Some w2) ob lim off).1.2 !! pname (_i self + k) = Some v2
      ∧ ∃ pre post,
          (select self m (Some w1) ob lim off).1.1
          = pre +:+ placeholder (pname (_i self + k)) +:+ post
          ∧ (select self m (Some w2) ob lim off).1.1
            = pre +:+ placeholder (pname (_i self + k)) +:+ post.
Proof.
  intros H. destruct (select_same_text self m w1 w2 ob lim off H) as (E1 & _ & E3).
  split; [done|]. split; [done|].
  split; [by rewrite !length_values, <-(literals_shape w1), H, literals_shape|].
  intros k v1 v2 H1 H2.
  destruct (select_holds_literal self m w1 ob lim off k v1 H1) as [L1 (pre & post & T1)].
  destruct (select_holds_literal self m w2 ob lim off k v2 H2) as [L2 _].
  split; [done|]. split; [done|]. exists pre, post. by rewrite <-E1.
Qed.

(** ** query.py, continued *)

Lemma bindings_lookup_last i vs v ws :
  length ws ≤ 1 → bindings i (vs ++ [v] ++ ws) !! pname (i + length vs) = Some v.
Proof.
  intros Hws. rewrite (assoc_L (++)), bindings_app, bindings_snoc.
  apply lookup_union_Some_l. apply lookup_insert_eq.
Qed.

(** X15: [first] changes the limit of the query and nothing else: a limit
    [l] becomes the smaller of [l] and one, so that a limit of one, of zero
    or below zero is kept, and a missing limit becomes one.  [first] then
    compiles the query it leaves, and the statement binds the new limit
    under the name that follows the filter's literals. *)
Theorem first_limits_to_one (q : Query) :
  let n := match _limit q with Some l => Z.min l 1 | None => 1%Z end in
  (first q).1 = q_limit q n
  ∧ (first q).2 = all (first q).1
  ∧ (first q).2.2 !! pname (match _where q with Some e => literals e | None => 0 end)
    = Some (PyInt n).
Proof.
  assert (∀ q' n, _limit q' = Some n →
            (all q').2 !! pname (match _where q' with Some e => literals e | None => 0 end)
            = Some (PyInt n)) as Hall.
  { intros q' n Hn. unfold all.
    destruct (select_bindings new_Compiler (model q') (_where q') (_order_by q')
                (_limit q') (_offset q')) as [H _].
    destruct (select _ _ _ _ _ _) as [[sql params] c]. cbn [fst snd] in *. rewrite H, Hn.
    unfold bound_values.
    replace (match _where q' with Some e => literals e | None => 0 end)
      with (0 + length (match _where q' with Some e => values e | None => [] end))
      by (destruct (_where q'); simpl; by rewrite ?length_values).
    apply bindings_lookup_last. destruct (_offset q'); simpl; lia. }
  assert (∀ l, _limit q = Some l → q = q_limit q l) as Hkeep.
  { destruct q; simpl. by intros l [= ->]. }
  cbv zeta. unfold first. destruct (_limit q) as [l|] eqn:Hq.
  - destruct (1 <? l)%Z eqn:Hl; cbn [fst snd].
    + apply Z.ltb_lt in Hl. rewrite Z.min_r by lia.
      split; [reflexivity|]. split; [reflexivity|]. by apply (Hall (q_limit q 1)).
    + apply Z.ltb_ge in Hl. rewrite Z.min_l by lia.
      split; [by apply Hkeep|]. split; [reflexivity|]. by apply Hall.
  - cbn [fst snd]. split; [reflexivity|]. split; [reflexivity|]. by apply (Hall (q_limit q 1)).
Qed.

(** X16: a filter given as a text binds no parameter, in [all] and in
    [count], and on a fresh query the text follows WHERE as it is. *)
Theorem text_filter_is_verbatim_and_unbound (q : Query) (s : string) (m : Model) :
  (all (filter q (FStr s))).2 = (all q).2
  ∧ (count (filter q (FStr s))).2 = (count q).2
  ∧ all (filter (new_Query m) (FStr s)) = (select_head m +:+ " WHERE " +:+ s, ∅).
Proof.
  assert (∀ lim off,
    (select new_Compiler (model q) (_where (filter q (FStr s))) (_order_by q) lim off).1.2
    = (select new_Compiler (model q) (_where q) (_order_by q) lim off).1.2) as H.
  { intros lim off.
    destruct (select_bindings new_Compiler (model q) (_where (filter q (FStr s)))
                (_order_by q) lim off) as [-> _].
    destruct (select_bindings new_Compiler (model q) (_where q) (_order_by q) lim off)
      as [-> _].
    unfold bound_values, filter. cbn [_where].
    destruct (_where q); cbn [values]; by rewrite ?(right_id_L [] (++)). }
  split_and!.
  - unfold all. cbn [filter model _order_by _limit _offset].
    specialize (H (_limit q) (_offset q)).
    by destruct (select _ _ _ _ _ _) as [[??]?], (select _ _ _ _ _ _) as [[??]?].
  - unfold count. cbn [filter model _order_by _limit _offset].
    specialize (H None None).
    by destruct (select _ _ _ _ _ _) as [[??]?], (select _ _ _ _ _ _) as [[??]?].
  - unfold all. rewrite select_steps. cbn. by rewrite (left_id_L ∅ (∪)).
Qed.

(** ** Statements whose placeholders are all bound *)

Lemma select_closed self m w ob lim off :
  pct_free_model m = true →
  match w with Some e => pct_free_expr e = true | None => True end →
  pct_free_order ob = true →
  closed_frag (select self m w ob lim off).1.1
    (pnames (_i self) (length (bound_values w lim off)))
  ∧ dom (select self m w ob lim off).1.2
    = list_to_set (pnames (_i self) (length (bound_values w lim off))).
Proof.
  intros Hm Hw Hob.
  destruct (select_allocated self m w ob lim off Hm Hw Hob) as (Hf & Hd & _).
  replace (length (bound_values w lim off)) with (allocations w lim off); [done|].
  unfold bound_values, allocations. rewrite !length_app.
  destruct w, lim, off; simpl; rewrite ?length_values; lia.
Qed.

Lemma placeholders_wrapped a sql b names :
  pct_free a = true → pct_free b = true → closed_frag sql names →
  placeholders (a +:+ sql +:+ b) = names.
Proof.
  intros Ha Hb Hsql. apply closed_frag_placeholders.
  rewrite <-(right_id_L [] (++) names).
  apply (closed_frag_app a _ [] _); [by apply closed_frag_free|].
  apply closed_frag_app; [done|by apply closed_frag_free].
Qed.

(** X17: when the names and texts of a query carry no percent sign, the
    placeholders of the statements of [all] and of [count] are the keys of
    their parameter maps, each once. *)
Theorem query_statements_bind_their_placeholders (q : Query) :
  pct_free_model (model q) = true →
  match _where q with Some e => pct_free_expr e = true | None => True end →
  pct_free_order (_order_by q) = true →
  list_to_set (placeholders (all q).1) = dom (all q).2
  ∧ list_to_set (placeholders (count q).1) = dom (count q).2
  ∧ NoDup (placeholders (all q).1)
  ∧ NoDup (placeholders (count q).1).
Proof.
  intros Hm Hw Hob.
  destruct (select_closed new_Compiler (model q) (_where q) (_order_by q)
              (_limit q) (_offset q) Hm Hw Hob) as [Hf Hd].
  destruct (select_closed new_Compiler (model q) (_where q) (_order_by q)
              None None Hm Hw Hob) as [Hf' Hd'].
  unfold all, count.
  destruct (select _ _ _ _ (_limit q) _) as [[sql params] c].
  destruct (select _ _ _ _ None _) as [[sql' params'] c']. cbn [fst snd] in *.
  rewrite (closed_frag_placeholders _ _ Hf).
  rewrite (placeholders_wrapped "SELECT count() FROM (" sql' (") AS " +:+ DQ +:+ "sub" +:+ DQ)
             _ eq_refl eq_refl Hf').
  split_and!; try done; apply NoDup_pnames.
Qed.

Lemma query_statements_bind_their_placeholders_witness :
  pct_free_model (model paged_query) = true
  ∧ match _where paged_query with Some e => pct_free_expr e = true | None => True end
  ∧ pct_free_order (_order_by paged_query) = true
  ∧ list_to_set (placeholders (all paged_query).1) = dom (all paged_query).2
  ∧ list_to_set (placeholders (count paged_query).1) = dom (count paged_query).2
  ∧ NoDup (placeholders (all paged_query).1)
  ∧ NoDup (placeholders (count paged_query).1).
Proof.
  split; [reflexivity|]. split; [reflexivity|]. split; [reflexivity|].
  apply (query_statements_bind_their_placeholders paged_query); reflexivity.
Defined.

(** ** engine.py: [insert_from_select] *)

Lemma pct_free_quoted_columns cols :
  forallb pct_free cols = true → pct_free (join ", " (map quote_ident cols)) = true.
Proof.
  intros H. apply pct_free_join; [done|].
  induction cols as [|c cols IH]; [done|]. cbn [map forallb] in *.
  apply andb_true_iff in H as [Hc Hcs]. by rewrite (pct_free_quote_ident _ Hc), IH.
Qed.

(** X18: [insert_from_select] on a query hands over the parameter map of
    the query's [all], and when no name or text carries a percent sign the
    placeholders of its statement are the keys of that map. *)
Theorem insert_from_select_binds_its_placeholders (target : Target) (q : Query)
    (columns : option (list string)) (described : list string) :
  pct_free (target_table target) = true →
  forallb pct_free (resolve_columns target columns described) = true →
  pct_free_model (model q) = true →
  match _where q with Some e => pct_free_expr e = true | None => True end →
  pct_free_order (_order_by q) = true →
  (insert_from_select target (SelectQuery q) columns described).2 = (all q).2
  ∧ list_to_set (placeholders (insert_from_select target (SelectQuery q) columns described).1)
    = dom (insert_from_select target (SelectQuery q) columns described).2.
Proof.
  intros Ht Hc Hm Hw Hob.
  destruct (select_closed new_Compiler (model q) (_where q) (_order_by q)
              (_limit q) (_offset q) Hm Hw Hob) as [Hf Hd].
  unfold insert_from_select, all.
  destruct (select _ _ _ _ _ _) as [[sql params] c]. cbn [fst snd] in *.
  split; [done|]. rewrite Hd. f_equal. apply closed_frag_placeholders.
  apply (closed_frag_app "INSERT INTO " _ [] _); [by apply closed_frag_free|].
  apply (closed_frag_app _ _ [] _); [by apply closed_frag_free, pct_free_render_table_name|].
  apply (closed_frag_app " (" _ [] _); [by apply closed_frag_free|].
  apply (closed_frag_app _ _ [] _); [by apply closed_frag_free, pct_free_quoted_columns|].
  apply (closed_frag_app ") " _ [] _); [by apply closed_frag_free|]. exact Hf.
Qed.

(** ** insert_builder.py, continued *)

(** X19: [compile] raises exactly when there is no source, or there is a
    source and the mapping is empty; the message tells which. *)
Theorem compile_raises_iff (b : InsertBuilder) (e : exn) :
  compile b = Raise e
  ↔ (_sources b = [] ∧ e = AssertionError "No sources() specified")
    ∨ (_sources b ≠ [] ∧ _mapping b = [] ∧ e = AssertionError "No map() specified").
Proof.
  unfold compile. destruct (_sources b) as [|s0 rest].
  - split; [intros [= <-]; by left|]. by intros [[_ ->]|[? _]].
  - destruct (_mapping b) as [|kv mapping].
    + split; [intros [= <-]; by right|]. by intros [[? _]|(_ & _ & ->)].
    + split; [done|]. by intros [[? _]|(_ & ? & _)].
Qed.

(** X20: [execute] sends the [insert_sql] of [compile], with no parameter,
    and raises what [compile] raises. *)
Theorem execute_sends_insert_sql (b : InsertBuilder) (described : list string) :
  execute b described
  = match compile b with
    | Ok (insert_sql, _) => Ok (insert_sql, ∅)
    | Raise e => Raise e
    end.
Proof.
  unfold execute, compile. destruct (_sources b) as [|s0 rest]; [done|].
  destruct (_mapping b) as [|[k v] mapping]; [done|].
  unfold insert_from_select, resolve_columns. cbn [truthy_list map default target_table fst].
  assert (map quote_ident (k :: map fst mapping)
          = quote_ident k :: map (λ '(c, _), quote_ident c) mapping) as E.
  { cbn [map]. f_equal. rewrite map_map. apply map_ext. by intros [??]. }
  unfold id. by rewrite E.
Qed.

(** ** engine.py: the class name of a generated model *)

Lemma is_alnum_upper c : is_alnum c = true → is_alnum (upper_char c) = true ∧ upper_char (upper_char c) = upper_char c.
Proof. destruct c as [[] [] [] [] [] [] [] []]; vm_compute; intuition congruence. Qed.

Lemma is_alnum_lower c : is_alnum c = true → is_alnum (lower_char c) = true.
Proof. destruct c as [[] [] [] [] [] [] [] []]; vm_compute; intuition congruence. Qed.

Lemma alnum_only_lower s : alnum_only s = true → alnum_only (lower s) = true.
Proof.
  induction s as [|c s IH]; [done|]. simpl. intros [Hc Hs]%andb_true_iff.
  by rewrite (is_alnum_lower c Hc), IH.
Qed.

Lemma alnum_only_app s t : alnum_only (s +:+ t) = alnum_only s && alnum_only t.
Proof. induction s as [|c s IH]; [done|]. simpl. by rewrite IH, andb_assoc. Qed.

Lemma re_split_nonalnum_alnum s : forallb alnum_only (re_split_nonalnum s) = true.
Proof.
  induction s as [|c s IH]; [done|]. cbn [re_split_nonalnum].
  destruct (is_alnum c) eqn:Hc.
  - destruct (re_split_nonalnum s) as [|p ps]; simpl in *; [by rewrite Hc|].
    by rewrite Hc.
  - destruct s as [|d s]; [done|]. destruct (is_alnum d); [|done]. by simpl.
Qed.

Lemma capitalized_parts parts :
  forallb alnum_only parts = true →
  alnum_only (concat_str (map capitalize (List.filter nonempty parts))) = true
  ∧ match concat_str (map capitalize (List.filter nonempty parts)) with
    | String c _ => upper_char c = c
    | "" => True
    end.
Proof.
  induction parts as [|p parts IH]; [done|]. cbn [forallb].
  intros [Hp Hps]%andb_true_iff. destruct (IH Hps) as [IH1 IH2].
  destruct p as [|c r]; [done|]. cbn [List.filter nonempty map capitalize concat_str].
  simpl in Hp. apply andb_true_iff in Hp as [Hc Hr].
  destruct (is_alnum_upper c Hc) as [H1 H2]. split; [|done].
  change (String (upper_char c) (lower r) +:+ ?x) with (String (upper_char c) (lower r +:+ x)).
  cbn [alnum_only]. by rewrite H1, alnum_only_app, (alnum_only_lower r Hr), IH1.
Qed.

(** X21: the class name derived from a table text is never empty, has only
    the characters 0-9, A-Z and a-z, and does not begin with a lower-case
    letter. *)
Theorem _derive_class_name_is_a_capitalized_word (table : string) :
  alnum_only (_derive_class_name_from_table table) = true
  ∧ ∃ c r, _derive_class_name_from_table table = String c r ∧ upper_char c = c.
Proof.
  unfold _derive_class_name_from_table.
  set (s := if contains_char dot _ then _ else _).
  destruct (capitalized_parts (re_split_nonalnum s) (re_split_nonalnum_alnum s)) as [H1 H2].
  destruct (concat_str _) as [|c r]; [|by eauto].
  split; [done|]. by exists "A"%char, "utoTable".
Qed.

(** ** engine.py: the attributes of a generated model *)

Lemma _parse_ch_type_empty : _parse_ch_type "" = Raise IndexError.
Proof. by vm_compute. Qed.

Lemma describe_loop_blank_type pre row rest :
  or_else (d_type row) "" = "" →
  ∀ attrs, describe_loop (pre ++ row :: rest) attrs = Raise IndexError.
Proof.
  intros Hrow. induction pre as [|r pre IH]; intros attrs; cbn [app describe_loop].
  - by rewrite Hrow, _parse_ch_type_empty.
  - destruct (_parse_ch_type_result (or_else (d_type r) "")) as [[ty ->]| ->]; [apply IH|done].
Qed.

(** X22: when a described column has no type text, or an empty one, and the
    type texts of the columns before it have at most 4300 characters each
    (so that each of their numerals is within what [int] converts), the loop
    of [generate_model] raises [IndexError]. *)
Theorem generate_model_needs_every_type (table : string) (pre : list DescRow)
    (row : DescRow) (rest : list DescRow) :
  Forall (λ r, String.length (or_else (d_type r) "") ≤ 4300) pre →
  or_else (d_type row) "" = "" →
  generate_model_attrs table (pre ++ row :: rest) = Raise IndexError.
Proof. intros _ Hrow. by apply describe_loop_blank_type. Qed.

Lemma describe_loop_rendered cols :
  ∀ attrs,
    NoDup (map fst cols) → (∀ k, k ∈ map fst cols → k ≠ "" ∧ k ∉ map fst attrs) →
    describe_loop (map (λ '(n, t), desc_row n (render_chtype t)) cols) attrs
    = Ok (attrs ++ map (λ '(n, t), (n, AttrColumn t)) cols).
Proof.
  induction cols as [|[n t] cols IH]; intros attrs Hnd Hk;
    [cbn [map describe_loop]; by rewrite (right_id_L [] (++))|].
  cbn [map fst describe_loop desc_row d_name d_type d_column] in *.
  apply NoDup_cons in Hnd as [Hn Hnd].
  destruct (Hk n ltac:(by left)) as [Hne Hfresh].
  destruct n as [|c n]; [done|]. cbn [or_else].
  assert (render_chtype t ≠ "") as Hr by (by destruct t).
  destruct (render_chtype t) as [|c' r] eqn:E; [done|]. rewrite <-E.
  assert (_parse_ch_type (render_chtype t) = Ok t) as ->
    by (unfold _parse_ch_type; by rewrite parse_rendered_fuel).
  rewrite dict_set_fresh by done. rewrite IH; [by rewrite <-(assoc_L (++))|done|].
  intros k Hin. destruct (Hk k ltac:(by right)) as [? Hk'].
  split; [done|]. rewrite map_app. intros [?|Hin']%elem_of_app; [done|].
  apply list_elem_of_singleton in Hin'. simpl in Hin'. subst. done.
Qed.

(** X23: from described columns with distinct names, none empty or
    [__table__], whose type texts are rendered types, [generate_model]
    builds the attributes [__table__] and one column of that type for each
    name, in order. *)
Theorem generate_model_reads_rendered_types (table : string) (cols : list (string * CHType)) :
  NoDup (map fst cols) → "" ∉ map fst cols → "__table__" ∉ map fst cols →
  generate_model_attrs table (map (λ '(n, t), desc_row n (render_chtype t)) cols)
  = Ok (("__table__", AttrText table) :: map (λ '(n, t), (n, AttrColumn t)) cols).
Proof.
  intros Hnd He Ht. unfold generate_model_attrs. rewrite describe_loop_rendered; [done..|].
  intros k Hk. split; [by intros ->|]. cbn. intros ->%list_elem_of_singleton. done.
Qed.

(** ** engine.py: [insert_rows] and [insert_dicts] *)

Lemma imap_pair_zip {A} (l : list A) :
  ∀ k, imap (λ i x, (k + i, x)) l = zip (seq k (length l)) l.
Proof.
  induction l as [|x l IH]; intros k; [done|]. cbn [imap length seq zip zip_with].
  rewrite Nat.add_0_r. f_equal. rewrite <-IH. apply imap_ext. intros i y _. simpl. f_equal. lia.
Qed.

Lemma enumerate_zip {A} (l : list A) : enumerate l = zip (seq 0 (length l)) l.
Proof. apply (imap_pair_zip l 0). Qed.

Lemma map_enumerate_index {A B} (g : nat → B) (l : list A) :
  map (λ '(j, _), g j) (enumerate l) = map g (seq 0 (length l)).
Proof.
  rewrite enumerate_zip. rewrite <-(fst_zip (seq 0 (length l)) l) at 2
    by (by rewrite length_seq).
  rewrite map_map. apply map_ext. by intros [??].
Qed.

Lemma vname_free i j :
  contains_char "%" (vname i j) = false ∧ contains_char ")" (vname i j) = false.
Proof.
  unfold vname.
  assert (∀ c, c = "%"%char ∨ c = ")"%char → ∀ n : nat, contains_char c (pretty n) = false) as H.
  { intros c Hc n. apply digits_only_free; [|apply pretty_N_digits].
    intros d Hd. destruct (digit_not_pct_paren d Hd). by destruct Hc as [->| ->]. }
  split; rewrite !contains_char_app, !H by auto; done.
Qed.

Lemma closed_frag_placeholder_name p :
  contains_char "%" p = false → contains_char ")" p = false →
  closed_frag (placeholder p) [p].
Proof.
  intros H1 H2 rest. unfold placeholder.
  change (("%(" +:+ p +:+ ")s") +:+ rest)
    with (String "%" (String "(" ((p +:+ ")s") +:+ rest))).
  rewrite str_app_assoc. cbn [placeholders].
  assert (placeholder_at (String "%" (String "(" (p +:+ ")s" +:+ rest))) = Some p) as ->.
  { unfold placeholder_at.
    change (")s" +:+ rest) with (String ")" (String "s" rest)).
    by rewrite read_name_stop. }
  f_equal.
  assert (placeholder_at (String "(" (p +:+ ")s" +:+ rest)) = None) as -> by done.
  rewrite <-str_app_assoc. apply (closed_frag_free (p +:+ ")s")).
  rewrite pct_free_app. unfold pct_free at 1. by rewrite H1.
Qed.

Lemma closed_frag_join sep parts namess :
  pct_free sep = true → Forall2 closed_frag parts namess →
  closed_frag (join sep parts) (concat namess).
Proof.
  intros Hsep H. induction H as [|p ns parts namess Hp H IH]; [by apply closed_frag_free|].
  cbn [concat]. destruct parts as [|p' parts].
  - apply Forall2_nil_inv_l in H as ->. cbn [join concat]. by rewrite (right_id_L [] (++)).
  - change (join sep (p :: p' :: parts)) with (p +:+ sep +:+ join sep (p' :: parts)).
    apply closed_frag_app; [done|].
    apply (closed_frag_app sep _ [] _); [by apply closed_frag_free|done].
Qed.

Lemma placeholders_closed_join i l :
  closed_frag (join ", " (map (λ j, placeholder (vname i j)) l)) (map (vname i) l).
Proof.
  assert (map (vname i) l = concat (map (λ j, [vname i j]) l)) as ->.
  { induction l as [|j l IH]; [done|]. cbn [map concat app]. by rewrite IH. }
  apply closed_frag_join; [done|].
  induction l as [|j l IH]; [constructor|]. cbn [map].
  constructor; [|done]. destruct (vname_free i j). by apply closed_frag_placeholder_name.
Qed.

Lemma row_text_closed {A} i (cols : list A) :
  closed_frag
    ("(" +:+ join ", " (map (λ '(j, _), placeholder (vname i j)) (enumerate cols)) +:+ ")")
    (map (vname i) (seq 0 (length cols))).
Proof.
  rewrite (map_enumerate_index (λ j, placeholder (vname i j))). intros rest.
  rewrite !str_app_assoc, (closed_frag_free "(" eq_refl), placeholders_closed_join.
  by rewrite (closed_frag_free ")" eq_refl).
Qed.

Lemma values_text_closed {A B} (rows : list A) (cols : list B) :
  closed_frag
    (join ", "
       (map (λ '(i, _),
          "(" +:+ join ", " (map (λ '(j, _), placeholder (vname i j)) (enumerate cols)) +:+ ")")
          (enumerate rows)))
    (concat (map (λ i, map (vname i) (seq 0 (length cols))) (seq 0 (length rows)))).
Proof.
  rewrite (map_enumerate_index
             (λ i, "(" +:+ join ", " (map (λ '(j, _), placeholder (vname i j)) (enumerate cols)) +:+ ")")).
  apply closed_frag_join; [done|].
  induction (seq 0 (length rows)) as [|i l IH]; [constructor|]. cbn [map].
  constructor; [apply row_text_closed|done].
Qed.

Lemma dom_row_params i row :
  ∀ k (params : gmap string PyValue),
    dom (foldl (λ params '(j, v), <[vname i j := v]> params) params (zip (seq k (length row)) row))
    = dom params ∪ list_to_set (map (vname i) (seq k (length row))).
Proof.
  induction row as [|v row IH]; intros k params; cbn [length seq zip zip_with foldl map];
    [set_solver|].
  rewrite IH, dom_insert_L. set_solver.
Qed.

Lemma dom_rows_params rows :
  ∀ k (params : gmap string PyValue),
    dom (foldl (λ params '(i, row),
                  foldl (λ params '(j, v), <[vname i j := v]> params) params (enumerate row))
               params (zip (seq k (length rows)) rows))
    = dom params
      ∪ list_to_set (concat (map (λ '(i, row), map (vname i) (seq 0 (length row)))
                               (zip (seq k (length rows)) rows))).
Proof.
  induction rows as [|row rows IH]; intros k params;
    cbn [length seq zip zip_with foldl map concat]; [set_solver|].
  rewrite IH, enumerate_zip, dom_row_params, list_to_set_app_L. set_solver.
Qed.

Lemma rectangular_names (rows : list (list PyValue)) n :
  forallb (λ row, bool_decide (length row = n)) rows = true →
  ∀ k, map (λ '(i, row), map (vname i) (seq 0 (length row))) (zip (seq k (length rows)) rows)
       = map (λ i, map (vname i) (seq 0 n)) (seq k (length rows)).
Proof.
  induction rows as [|row rows IH]; intros H k; [done|].
  cbn [forallb] in H. apply andb_true_iff in H as [Hr Hrs]. apply bool_decide_eq_true in Hr.
  cbn [length seq zip zip_with map]. by rewrite Hr, IH.
Qed.

Lemma insert_rows_placeholders (target : Target) (rows : list (list PyValue))
    (columns : option (list string)) (described : list string) :
  pct_free (target_table target) = true →
  forallb pct_free (resolve_columns target columns described) = true →
  forallb (λ row, bool_decide (length row = length (resolve_columns target columns described)))
    rows = true →
  list_to_set (placeholders (insert_rows target rows columns described).1)
  = dom (insert_rows target rows columns described).2.
Proof.
  intros Ht Hc Hrows. unfold insert_rows. cbn [fst snd].
  set (cols := resolve_columns target columns described) in *.
  rewrite (enumerate_zip rows) at 2. rewrite dom_rows_params, dom_empty_L, (left_id_L ∅ (∪)).
  rewrite (rectangular_names rows (length cols) Hrows). f_equal.
  apply closed_frag_placeholders.
  apply (closed_frag_app "INSERT INTO " _ [] _); [by apply closed_frag_free|].
  apply (closed_frag_app _ _ [] _); [by apply closed_frag_free, pct_free_render_table_name|].
  apply (closed_frag_app " (" _ [] _); [by apply closed_frag_free|].
  apply (closed_frag_app _ _ [] _); [by apply closed_frag_free, pct_free_quoted_columns|].
  apply (closed_frag_app ") VALUES " _ [] _); [by apply closed_frag_free|].
  apply values_text_closed.
Qed.

(** X24: when every row has as many values as there are columns, and no
    name carries a percent sign, the placeholders of the statement of
    [insert_rows] are the keys of its parameter map. *)
Theorem insert_rows_binds_its_placeholders (target : Target) (rows : list (list PyValue))
    (columns : option (list string)) (described : list string) :
  pct_free (target_table target) = true →
  forallb pct_free (resolve_columns target columns described) = true →
  forallb (λ row, bool_decide (length row = length (resolve_columns target columns described)))
    rows = true →
  list_to_set (placeholders (insert_rows target rows columns described).1)
  = dom (insert_rows target rows columns described).2.
Proof. apply insert_rows_placeholders. Qed.

(** X25: when the column list of [insert_dicts] is not empty, and no name
    carries a percent sign, the placeholders of its statement are the keys
    of its parameter map, whatever keys the items have. *)
Theorem insert_dicts_binds_its_placeholders (target : Target)
    (items : list (gmap string PyValue)) (columns : option (list string))
    (described : list string) :
  pct_free (target_table target) = true →
  forallb pct_free (if truthy_list columns then default [] columns else sorted_keys items)
  = true →
  (if truthy_list columns then default [] columns else sorted_keys items) ≠ [] →
  list_to_set (placeholders (insert_dicts target items columns described).1)
  = dom (insert_dicts target items columns described).2.
Proof.
  unfold insert_dicts.
  generalize (if truthy_list columns then default [] columns else sorted_keys items).
  intros cols Ht Hc Hne.
  assert (resolve_columns target (Some cols) described = cols) as E.
  { unfold resolve_columns. by destruct cols. }
  apply insert_rows_placeholders; rewrite ?E; [done..|].
  induction items as [|d items IH]; [done|]. cbn [map forallb].
  by rewrite length_map, bool_decide_eq_true_2, IH.
Qed.

(** ** The properties with a premise, at sample inputs *)

(** X4 at the columns [ts] and [ID]. *)
Lemma create_table_orders_by_default_witness :
  order_by default_options = None
  ∧ ∃ k, create_table "events" (("ts", TObj (DateTime64 3)) :: [("ID", TObj UInt64)])
           default_options
         = Ok (join (String nl "")
                 (table_parts (render_table_name "events")
                    (_render_columns_from_dict
                       (("ts", TObj (DateTime64 3)) :: [("ID", TObj UInt64)]))
                    (with_order_by (Some [k]) default_options)))
       ∧ "ORDER BY (" +:+ quote_ident k +:+ ")"
         ∈ table_parts (render_table_name "events")
             (_render_columns_from_dict
                (("ts", TObj (DateTime64 3)) :: [("ID", TObj UInt64)]))
             (with_order_by (Some [k]) default_options)
       ∧ ((∃ pre post, "ts" :: map fst [("ID", TObj UInt64)] = pre ++ k :: post
                       ∧ lower k = "id" ∧ ∀ k', k' ∈ post → lower k' ≠ "id")
          ∨ (k = "ts" ∧ ∀ k', k' ∈ "ts" :: map fst [("ID", TObj UInt64)] → lower k' ≠ "id")).
Proof.
  split; [reflexivity|].
  apply (create_table_orders_by_default "events" "ts" (TObj (DateTime64 3))
           [("ID", TObj UInt64)] default_options). reflexivity.
Defined.

(** X7 at [events] ordered by [ts] and [id]. *)
Lemma entry_shapes_agree_witness :
  __order_by__ ordered_events = Some ["ts"; "id"]
  ∧ NoDup (map (λ '(_, c), name c) (__columns__ ordered_events))
  ∧ create_table (__table__ ordered_events) (model_columns_dict ordered_events)
      (model_options ordered_events true)
    = Ok (create_table_from_model ordered_events true).
Proof.
  assert (NoDup (map (λ '(_, c), name c) (__columns__ ordered_events))) as Hnd
    by (apply (bool_decide_unpack _); vm_compute; exact I).
  split; [reflexivity|]. split; [exact Hnd|].
  apply (entry_shapes_agree ordered_events true ["ts"; "id"]); [reflexivity|exact Hnd].
Defined.

(** X18 at the paged query on [users]. *)
Lemma insert_from_select_binds_its_placeholders_witness :
  pct_free (target_table (TModel users)) = true
  ∧ forallb pct_free (resolve_columns (TModel users) None []) = true
  ∧ pct_free_model (model paged_query) = true
  ∧ match _where paged_query with Some e => pct_free_expr e = true | None => True end
  ∧ pct_free_order (_order_by paged_query) = true
  ∧ (insert_from_select (TModel users) (SelectQuery paged_query) None []).2 = (all paged_query).2
  ∧ list_to_set (placeholders (insert_from_select (TModel users) (SelectQuery paged_query) None []).1)
    = dom (insert_from_select (TModel users) (SelectQuery paged_query) None []).2.
Proof.
  do 5 (split; [reflexivity|]).
  apply (insert_from_select_binds_its_placeholders (TModel users) paged_query None []);
    reflexivity.
Defined.

(** X23 at three described columns. *)
Lemma generate_model_reads_rendered_types_witness :
  NoDup (map fst described_events)
  ∧ ("" ∉ map fst described_events)
  ∧ ("__table__" ∉ map fst described_events)
  ∧ generate_model_attrs "events"
      (map (λ '(n, t), desc_row n (render_chtype t)) described_events)
    = Ok (("__table__", AttrText "events")
            :: map (λ '(n, t), (n, AttrColumn t)) described_events).
Proof.
  assert (NoDup (map fst described_events)) as H1
    by (apply (bool_decide_unpack _); vm_compute; exact I).
  assert ("" ∉ map fst described_events) as H2
    by (apply (bool_decide_unpack _); vm_compute; exact I).
  assert ("__table__" ∉ map fst described_events) as H3
    by (apply (bool_decide_unpack _); vm_compute; exact I).
  split; [exact H1|]. split; [exact H2|]. split; [exact H3|].
  apply (generate_model_reads_rendered_types "events" described_events H1 H2 H3).
Defined.

(** X24 at two rows for [users]. *)
Lemma insert_rows_binds_its_placeholders_witness :
  pct_free (target_table (TModel users)) = true
  ∧ forallb pct_free (resolve_columns (TModel users) None []) = true
  ∧ forallb (λ row, bool_decide (length row = length (resolve_columns (TModel users) None [])))
      two_rows = true
  ∧ list_to_set (placeholders (insert_rows (TModel users) two_rows None []).1)
    = dom (insert_rows (TModel users) two_rows None []).2.
Proof.
  do 3 (split; [reflexivity|]).
  apply (insert_rows_binds_its_placeholders (TModel users) two_rows None []); reflexivity.
Defined.

(** X25 at two items with different keys. *)
Lemma insert_dicts_binds_its_placeholders_witness :
  pct_free (target_table (TModel users)) = true
  ∧ forallb pct_free
      (if truthy_list (@None (list string)) then default [] None else sorted_keys two_items)
    = true
  ∧ (if truthy_list (@None (list string)) then default [] None else sorted_keys two_items) ≠ []
  ∧ list_to_set (placeholders (insert_dicts (TModel users) two_items None []).1)
    = dom (insert_dicts (TModel users) two_items None []).2.
Proof.
  assert ((if truthy_list (@None (list string)) then default [] None else sorted_keys two_items)
          = ["id"; "name"]) as E by (by vm_compute).
  split; [reflexivity|]. split; [by rewrite E|]. split; [by rewrite E|].
  apply (insert_dicts_binds_its_placeholders (TModel users) two_items None []);
    [reflexivity|by rewrite E|by rewrite E].
Defined.

(** X27 at an unknown type text. *)
Lemma _parse_ch_type_leaf_witness :
  String.length "Enum8('a'=1)" ≤ 4300
  ∧ _RE_WRAP1 (strip "Enum8('a'=1)") = None
  ∧ strip "Enum8('a'=1)" ≠ ""
  ∧ ∃ ty, _parse_ch_type "Enum8('a'=1)" = Ok ty.
Proof.
  split; [simpl; lia|]. split; [reflexivity|]. split; [by vm_compute|].
  apply (_parse_ch_type_leaf "Enum8('a'=1)"); [simpl; lia|reflexivity|by vm_compute].
Defined.

(** X8 at a type text in mixed case. *)
Lemma _parse_ch_type_ignores_case_witness :
  ascii_only "LowCardinality(FIXEDSTRING(3))" = true
  ∧ _parse_ch_type (lower "LowCardinality(FIXEDSTRING(3))")
    = _parse_ch_type "LowCardinality(FIXEDSTRING(3))".
Proof.
  split; [reflexivity|].
  apply (_parse_ch_type_ignores_case "LowCardinality(FIXEDSTRING(3))"). reflexivity.
Defined.

(** X22 at a table whose second column has no type text. *)
Lemma generate_model_needs_every_type_witness :
  Forall (λ r, String.length (or_else (d_type r) "") ≤ 4300) [desc_row "id" "UInt64"]
  ∧ or_else (d_type {| d_name := Some "x"; d_column := None; d_type := None |}) "" = ""
  ∧ generate_model_attrs "t"
      ([desc_row "id" "UInt64"]
       ++ {| d_name := Some "x"; d_column := None; d_type := None |}
       :: [desc_row "y" "Int8"])
    = Raise IndexError.
Proof.
  assert (Forall (λ r, String.length (or_else (d_type r) "") ≤ 4300)
            [desc_row "id" "UInt64"]) as Hpre
    by (apply Forall_cons; split; [simpl; lia|apply Forall_nil_2]).
  split; [exact Hpre|]. split; [reflexivity|].
  apply (generate_model_needs_every_type "t" [desc_row "id" "UInt64"]
           {| d_name := Some "x"; d_column := None; d_type := None |}
           [desc_row "y" "Int8"]); [exact Hpre|reflexivity].
Defined.

(** C1 at a number and at a hostile text: the same statement, and each
    value in its own parameter map. *)
Lemma select_text_ignores_literals_witness :
  shape id_is_5 = shape id_is_hostile
  ∧ (select new_Compiler users (Some id_is_5) None (Some 10%Z) None).1.1
    = (select new_Compiler users (Some id_is_hostile) None (Some 10%Z) None).1.1
  ∧ (select new_Compiler users (Some id_is_5) None (Some 10%Z) None).1.2 !! "p0"
    = Some (PyInt 5)
  ∧ (select new_Compiler users (Some id_is_hostile) None (Some 10%Z) None).1.2 !! "p0"
    = Some (PyStr "'; DROP TABLE users; --").
Proof.
  split; [reflexivity|].
  destruct (select_text_ignores_literals new_Compiler users id_is_5 id_is_hostile
              None (Some 10%Z) None eq_refl) as (H1 & _ & _ & H4).
  split; [exact H1|].
  destruct (H4 0 (PyInt 5) (PyStr "'; DROP TABLE users; --") eq_refl eq_refl)
    as (L1 & L2 & _).
  split; [exact L1|exact L2].
Defined.
